(** * Integrity check and shrinkage diagnosis of the USAJobs data pipeline

    A shallow embedding of [src/generate_data/run_data_pipeline.py]:
    the snapshot of job counts taken before the collector runs
    ([record_initial_job_counts]), the check run after it
    ([check_file_sizes_vs_initial]), the diagnosis of files that lost rows
    ([diagnose_shrinkage]) and the identifier extractor
    ([save_initial_snapshot]).

    Python's [print] is kept as a log of structured events, the module
    global [initial_counts] as explicit state, and exceptions as a result
    that short-circuits until a [try]/[except] handles it. *)

From stdpp Require Import gmap strings list pretty.

Open Scope string_scope.
Open Scope Z_scope.

(** ** Tables as pandas shows them *)

Module Pandas.

(** A cell of a parquet column: missing ([None]/[NaN]), a string or an
    integer. *)
Inductive cell :=
  | NA
  | VStr (s : string)
  | VInt (z : Z).

#[global] Instance cell_eq_dec : EqDecision cell.
Proof. solve_decision. Defined.

(** A [DataFrame]: column labels and rows; a row holds one cell per
    column, in the order of the labels. *)
Record DataFrame := {
  columns : list string;
  rows : list (list cell)
}.

(** [len(df)] *)
Definition len (df : DataFrame) : Z := Z.of_nat (length (rows df)).

(** [name in df.columns] *)
Definition has_column (name : string) (df : DataFrame) : bool :=
  bool_decide (name ∈ columns df).

(** Position of a label among the columns. *)
Fixpoint col_index (name : string) (cols : list string) : option nat :=
  match cols with
  | [] => None
  | c :: cols' =>
      if decide (c = name) then Some 0%nat
      else S <$> col_index name cols'
  end.

(** [row.get(name, default)] on a row of [df.iterrows()]. *)
Definition row_get (cols : list string) (row : list cell) (name : string)
    (default : cell) : cell :=
  match col_index name cols with
  | Some i => nth i row NA
  | None => default
  end.

(** [df[name]]: the column as a series, [None] for pandas' [KeyError]. *)
Definition getitem (df : DataFrame) (name : string) : option (list cell) :=
  match col_index name (columns df) with
  | Some i => Some (map (λ row, nth i row NA) (rows df))
  | None => None
  end.

Definition notna (c : cell) : bool :=
  match c with NA => false | _ => true end.

(** [series.dropna()] *)
Definition dropna (series : list cell) : list cell :=
  List.filter notna series.

(** [str(v)] of one cell, as [series.astype(str)] applies it. *)
Definition str_of_cell (c : cell) : string :=
  match c with
  | NA => "nan"
  | VStr s => s
  | VInt z => pretty z
  end.

(** [series.astype(str)] *)
Definition astype_str (series : list cell) : list string :=
  map str_of_cell series.

(** One cell of [series.isin(values)] for a list of Python strings: a
    string cell matches an equal string, an integer cell or a missing one
    matches none ([1 == '1'] is [False]). *)
Definition cell_isin (values : list string) (c : cell) : bool :=
  match c with
  | VStr s => bool_decide (s ∈ values)
  | _ => false
  end.

(** [df[mask]] on the rows of a frame. *)
Fixpoint boolean_index {A} (xs : list A) (mask : list bool) : list A :=
  match xs, mask with
  | x :: xs', b :: mask' =>
      if b then x :: boolean_index xs' mask' else boolean_index xs' mask'
  | _, _ => []
  end.

(** [set(series.dropna().astype(str))] *)
Definition id_set (series : list cell) : gset string :=
  list_to_set (astype_str (dropna series)).

End Pandas.
Import Pandas.

(** ** Effects: printed lines, the module global, exceptions *)

(** What Python raised. *)
Inductive exn :=
  | OSError (path : string)
  | ParquetError (path : string)
  | KeyError (name : string)
  | SubprocessError.

(** One constructor per [print] of the modelled functions; the arguments
    are the values the f-string interpolates (a path is kept whole where
    the script prints its base name, and the banner of the failed check is
    one event). *)
Inductive event :=
  | EvRecordingSizes
  | EvInitialSize (file : string) (size : Z)
  | EvRecordingCounts
  | EvInitialCount (file : string) (count : Z)
  | EvCouldNotRead (file : string) (e : exn)
  | EvChecking
  | EvLostJobs (file : string) (initial_count current_count : Z)
      (initial_size current_size : Z)
  | EvGrew (file : string) (initial_count current_count : Z)
      (initial_size current_size : Z)
  | EvUnchanged (file : string) (current_count current_size : Z)
  | EvCouldNotCheck (file : string) (e : exn)
  | EvDiagnosticHeader
  | EvCritical
  | EvDiagnosing (file : string)
  | EvInitialJobs (n : Z)
  | EvCurrentJobs (n : Z)
  | EvJobsAdded (n : Z)
  | EvJobsLost (n : Z)
  | EvJobsUnchanged
  | EvNoControlNumber
  | EvRemoved (n : nat)
  | EvAdded (n : nat)
  | EvExamples
  | EvRemovedJob (control_num title agency open_date : cell)
  | EvTooMany (n : nat)
  | EvFirstFive (ids : list string)
  | EvNoPrevious
  | EvDiagnosisError (e : exn).

(** The module-level state of the script: [initial_counts = {}]. *)
Record globals := { initial_counts : gmap string Z }.

Definition fresh_globals : globals := {| initial_counts := ∅ |}.

Inductive result (A : Type) :=
  | Ok (a : A)
  | Raise (e : exn).
Arguments Ok {A} a.
Arguments Raise {A} e.

(** A run of a piece of Python: its value or exception, the globals it
    leaves, and the lines it printed. *)
Record outcome (A : Type) := {
  value : result A;
  store : globals;
  printed : list event
}.
Arguments value {A} _.
Arguments store {A} _.
Arguments printed {A} _.

Definition Py (A : Type) : Type := globals → outcome A.

#[global] Instance Py_ret : MRet Py := λ A a g,
  {| value := Ok a; store := g; printed := [] |}.

#[global] Instance Py_bind : MBind Py := λ A B k m g,
  let o := m g in
  match value o with
  | Ok a =>
      let o' := k a (store o) in
      {| value := value o'; store := store o';
         printed := printed o ++ printed o' |}
  | Raise e => {| value := Raise e; store := store o; printed := printed o |}
  end.

Definition print (ev : event) : Py unit := λ g,
  {| value := Ok (); store := g; printed := [ev] |}.

Definition raise {A} (e : exn) : Py A := λ g,
  {| value := Raise e; store := g; printed := [] |}.

(** [try: body / except Exception as e: handler e]; what the body printed
    and stored before raising stays. *)
Definition try_except {A} (body : Py A) (handler : exn → Py A) : Py A := λ g,
  let o := body g in
  match value o with
  | Ok a => o
  | Raise e =>
      let o' := handler e (store o) in
      {| value := value o'; store := store o';
         printed := printed o ++ printed o' |}
  end.

(** A call that returns or raises. *)
Definition or_raise {A} (e : exn) (r : option A) : Py A :=
  match r with
  | Some a => mret a
  | None => raise e
  end.

(** [initial_counts.get(file, 0)] *)
Definition initial_counts_get (file : string) (dflt : Z) : Py Z := λ g,
  {| value := Ok (default dflt (initial_counts g !! file));
     store := g; printed := [] |}.

(** [initial_counts[file] = count] *)
Definition initial_counts_set (file : string) (count : Z) : Py unit := λ g,
  {| value := Ok ();
     store := {| initial_counts := <[file := count]> (initial_counts g) |};
     printed := [] |}.

(** The global [initial_counts] read as a value. *)
Definition initial_counts_read : Py (gmap string Z) := λ g,
  {| value := Ok (initial_counts g); store := g; printed := [] |}.

(** [for x in xs: body], where the body updates the function's locals. *)
Fixpoint for_in {A L} (xs : list A) (body : A → L → Py L) (locals : L)
    : Py L :=
  match xs with
  | [] => mret locals
  | x :: xs' => locals' ← body x locals; for_in xs' body locals'
  end.

(** ** The outside world *)

(** What the script reads from its environment at one moment of the run. *)
Record World := {
  (** [glob.glob('../../data/current_jobs_*.parquet')] *)
  data_files : list string;
  (** [os.path.getsize(file)], [None] when it raises *)
  getsize : string → option Z;
  (** [pd.read_parquet(file)], [None] when it raises *)
  read_parquet : string → option DataFrame;
  (** [subprocess.run(['git', 'show', HEAD:path], capture_output=True)]:
      the return code and stdout; [None] when the call itself raises *)
  git_show : string → option (Z * string);
  (** the bytes of [git show] written to the temporary file, read back
      with [pd.read_parquet] and the file removed; [None] when that
      raises *)
  parquet_of_bytes : string → option DataFrame;
  (** [list(s)] for a set [s] of strings: the members of [s], each once,
      in the order in which this interpreter iterates over the set.
      Python does not fix that order: it follows the hashes of the
      strings, which differ from one process to the next *)
  list_of_set : gset string → list string;
  list_of_set_members : ∀ s, list_of_set s ≡ₚ elements s
}.

Definition os_getsize (w : World) (file : string) : Py Z :=
  or_raise (OSError file) (getsize w file).

Definition pd_read_parquet (w : World) (file : string) : Py DataFrame :=
  or_raise (ParquetError file) (read_parquet w file).

Definition subprocess_git_show (w : World) (file : string) : Py (Z * string) :=
  or_raise SubprocessError (git_show w file).

Definition pd_read_temp (w : World) (file : string) (bytes : string)
    : Py DataFrame :=
  or_raise (ParquetError (file ++ ".temp")) (parquet_of_bytes w bytes).

(** [df[name]] *)
Definition column (df : DataFrame) (name : string) : Py (list cell) :=
  or_raise (KeyError name) (getitem df name).

(** ** The script *)

(** [record_initial_file_sizes()] *)
Definition record_initial_file_sizes (w : World) : Py (gmap string Z) :=
  print EvRecordingSizes;;
  for_in (data_files w) (λ file (initial_sizes : gmap string Z),
    try_except
      (initial_size ← os_getsize w file;
       print (EvInitialSize file initial_size);;
       mret (<[file := initial_size]> initial_sizes))
      (λ e,
       print (EvCouldNotRead file e);;
       mret (<[file := 0]> initial_sizes)))
    ∅.

(** One turn of the loop of [record_initial_job_counts]. *)
Definition record_job_count (w : World) (file : string) (_ : unit) : Py unit :=
  try_except
    (df ← pd_read_parquet w file;
     let count := len df in
     initial_counts_set file count;;
     print (EvInitialCount file count))
    (λ e,
     print (EvCouldNotRead file e);;
     initial_counts_set file 0).

(** [record_initial_job_counts()]: fills the global [initial_counts] and
    returns it. *)
Definition record_initial_job_counts (w : World) : Py (gmap string Z) :=
  print EvRecordingCounts;;
  for_in (data_files w) (record_job_count w) ();;
  initial_counts_read.

(** [save_initial_snapshot(file_path)]; its bare [except:] returns the
    empty set. *)
Definition save_initial_snapshot (w : World) (file_path : string)
    : Py (gset string) :=
  try_except
    (df ← pd_read_parquet w file_path;
     if has_column "usajobs_control_number" df then
       series ← column df "usajobs_control_number";
       mret (id_set series)
     else if has_column "usajobsControlNumber" df then
       series ← column df "usajobsControlNumber";
       mret (id_set series)
     else mret ∅)
    (λ _, mret ∅).

(** [old_ids - current_ids] and [current_ids - old_ids] *)
Definition missing_ids (old_ids current_ids : gset string) : gset string :=
  old_ids ∖ current_ids.

Definition new_ids (old_ids current_ids : gset string) : gset string :=
  current_ids ∖ old_ids.

(** The control numbers of both frames (the "Get control numbers" block of
    [diagnose_shrinkage]); [None] is the early [return] of its [else]. *)
Definition control_numbers (old_df current_df : DataFrame)
    : Py (option (gset string * gset string)) :=
  if has_column "usajobs_control_number" old_df then
    old ← column old_df "usajobs_control_number";
    cur ← column current_df "usajobs_control_number";
    mret (Some (id_set old, id_set cur))
  else if has_column "usajobsControlNumber" old_df then
    old ← column old_df "usajobsControlNumber";
    cur ← column current_df "usajobsControlNumber";
    mret (Some (id_set old, id_set cur))
  else
    print EvNoControlNumber;;
    mret None.

(** The line printed for one row of [missing_jobs.iterrows()]. *)
Definition removed_job_line (cols : list string) (job : list cell) : event :=
  EvRemovedJob
    (row_get cols job "usajobs_control_number"
       (row_get cols job "usajobsControlNumber" NA))
    (row_get cols job "positionTitle" (VStr "Unknown"))
    (row_get cols job "hiringAgencyName" (VStr "Unknown"))
    (row_get cols job "positionOpenDate" (VStr "Unknown")).

(** The report on the removed identifiers (the [if missing_ids and
    len(missing_ids) <= 10: ... elif missing_ids: ...] of
    [diagnose_shrinkage]). [list(missing_ids)] is [list_of_set]: the
    order of the identifiers is the interpreter's. *)
Definition report_missing (w : World) (old_df : DataFrame)
    (missing : gset string) : Py unit :=
  if bool_decide (missing ≠ ∅) && bool_decide (size missing ≤ 10)%nat then
    print EvExamples;;
    let sample_missing := take 10 (list_of_set w missing) in
    missing_jobs ←
      (if has_column "usajobs_control_number" old_df then
         series ← column old_df "usajobs_control_number";
         mret (boolean_index (rows old_df)
                 (map (cell_isin sample_missing) series))
       else
         series ← column old_df "usajobsControlNumber";
         mret (boolean_index (rows old_df)
                 (map (cell_isin sample_missing) series)));
    for_in missing_jobs (λ job (_ : unit),
      print (removed_job_line (columns old_df) job)) ()
  else if bool_decide (missing ≠ ∅) then
    print (EvTooMany (size missing));;
    print (EvFirstFive (take 5 (list_of_set w missing)))
  else mret ().

(** The [try] block of [diagnose_shrinkage]. *)
Definition diagnose_body (w : World) (file_path : string) (initial_count : Z)
    : Py unit :=
  current_df ← pd_read_parquet w file_path;
  let current_count := len current_df in
  print (EvInitialJobs initial_count);;
  print (EvCurrentJobs current_count);;
  let job_difference := current_count - initial_count in
  (if bool_decide (job_difference > 0) then print (EvJobsAdded job_difference)
   else if bool_decide (job_difference < 0) then
     print (EvJobsLost (- job_difference))
   else print EvJobsUnchanged);;
  result ← subprocess_git_show w file_path;
  let '(returncode, stdout) := result in
  if bool_decide (returncode = 0) && bool_decide (stdout ≠ "") then
    old_df ← pd_read_temp w file_path stdout;
    ids ← control_numbers old_df current_df;
    match ids with
    | None => mret ()
    | Some (old_ids, current_ids) =>
        let missing := missing_ids old_ids current_ids in
        let added := new_ids old_ids current_ids in
        print (EvRemoved (size missing));;
        print (EvAdded (size added));;
        report_missing w old_df missing
    end
  else print EvNoPrevious.

(** [diagnose_shrinkage(file_path, initial_count)] *)
Definition diagnose_shrinkage (w : World) (file_path : string)
    (initial_count : Z) : Py unit :=
  print (EvDiagnosing file_path);;
  try_except (diagnose_body w file_path initial_count)
    (λ e, print (EvDiagnosisError e)).

(** The locals that the loop of [check_file_sizes_vs_initial] updates
    ([suspicious_files] is never used and is left out). *)
Record check_locals := {
  size_checks : list bool;
  files_changed : bool;
  shrunken_files : list string
}.

(** One turn of the loop of [check_file_sizes_vs_initial]. *)
Definition check_file (w : World) (initial_sizes : gmap string Z)
    (file : string) (l : check_locals) : Py check_locals :=
  try_except
    (current_size ← os_getsize w file;
     let initial_size := default 0 (initial_sizes !! file) in
     current_df ← pd_read_parquet w file;
     let current_count := len current_df in
     initial_count ← initial_counts_get file 0;
     let count_decreased := bool_decide (current_count < initial_count) in
     let jobs_change := current_count - initial_count in
     if count_decreased then
       print (EvLostJobs file initial_count current_count
                initial_size current_size);;
       mret {| size_checks := size_checks l ++ [false];
               files_changed := files_changed l;
               shrunken_files := shrunken_files l ++ [file] |}
     else if bool_decide (jobs_change > 0) then
       print (EvGrew file initial_count current_count
                initial_size current_size);;
       mret {| size_checks := size_checks l ++ [true];
               files_changed := true;
               shrunken_files := shrunken_files l |}
     else
       print (EvUnchanged file current_count current_size);;
       mret {| size_checks := size_checks l ++ [true];
               files_changed := files_changed l;
               shrunken_files := shrunken_files l |})
    (λ e,
     print (EvCouldNotCheck file e);;
     mret {| size_checks := size_checks l ++ [false];
             files_changed := files_changed l;
             shrunken_files := shrunken_files l |}).

Definition no_locals : check_locals :=
  {| size_checks := []; files_changed := false; shrunken_files := [] |}.

(** [check_file_sizes_vs_initial(initial_sizes)]: the pair
    [(ok, changed)]. *)
Definition check_file_sizes_vs_initial (w : World)
    (initial_sizes : gmap string Z) : Py (bool * bool) :=
  print EvChecking;;
  l ← for_in (data_files w) (check_file w initial_sizes) no_locals;
  (if bool_decide (shrunken_files l ≠ []) then
     print EvDiagnosticHeader;;
     for_in (shrunken_files l) (λ file (_ : unit),
       initial_count ← initial_counts_get file 0;
       diagnose_shrinkage w file initial_count) ()
   else mret ());;
  if negb (forallb id (size_checks l)) then
    print EvCritical;;
    mret (false, false)
  else mret (true, files_changed l).

#[global] Arguments diagnose_body : simpl never.
#[global] Arguments diagnose_shrinkage : simpl never.
#[global] Arguments check_file : simpl never.
#[global] Arguments record_job_count : simpl never.
#[global] Arguments record_initial_job_counts : simpl never.
#[global] Arguments check_file_sizes_vs_initial : simpl never.

(** ** Vocabulary of the statements *)

(** A computation that leaves the globals as they were. *)
Definition quiet {A} (m : Py A) : Prop := ∀ g, store (m g) = g.

(** A computation that prints only events of one kind. *)
Definition prints {A} (P : event → Prop) (m : Py A) : Prop :=
  ∀ g, Forall P (printed (m g)).

(** The lines that only the [try] block of [diagnose_shrinkage] and its
    handler print. *)
Definition diagnosis_detail (ev : event) : Prop :=
  match ev with
  | EvInitialJobs _ | EvCurrentJobs _ | EvJobsAdded _ | EvJobsLost _
  | EvJobsUnchanged | EvNoControlNumber | EvRemoved _ | EvAdded _
  | EvExamples | EvRemovedJob _ _ _ _ | EvTooMany _ | EvFirstFive _
  | EvNoPrevious | EvDiagnosisError _ => True
  | _ => False
  end.

(** The line that closes a diagnosis whose [try] block raised. *)
Definition error_line (r : result unit) : list event :=
  match r with
  | Ok _ => []
  | Raise e => [EvDiagnosisError e]
  end.

(** The value a run returned, if it returned. *)
Definition verdict_of {A} (o : outcome A) : option A :=
  match value o with
  | Ok a => Some a
  | Raise _ => None
  end.

(** The count the script holds for a file in [initial_counts]. *)
Definition initial_of (g : globals) (file : string) : Z :=
  default 0 (initial_counts g !! file).

(** What one turn of the check loop sees of a file: the exception of the
    first call that raised, or the size and the row count. *)
Definition observe (w : World) (file : string) : exn + (Z * Z) :=
  match getsize w file with
  | None => inl (OSError file)
  | Some current_size =>
      match read_parquet w file with
      | None => inl (ParquetError file)
      | Some current_df => inr (current_size, len current_df)
      end
  end.

Definition lost (w : World) (g : globals) (file : string) : bool :=
  match observe w file with
  | inr (_, current_count) => bool_decide (current_count < initial_of g file)
  | inl _ => false
  end.

Definition grew (w : World) (g : globals) (file : string) : bool :=
  match observe w file with
  | inr (_, current_count) => bool_decide (initial_of g file < current_count)
  | inl _ => false
  end.

Definition passes (w : World) (g : globals) (file : string) : bool :=
  match observe w file with
  | inr (_, current_count) => bool_decide (initial_of g file ≤ current_count)
  | inl _ => false
  end.

(** The line one turn of the check loop prints. *)
Definition check_line (w : World) (initial_sizes : gmap string Z)
    (g : globals) (file : string) : event :=
  match observe w file with
  | inl e => EvCouldNotCheck file e
  | inr (current_size, current_count) =>
      let initial_size := default 0 (initial_sizes !! file) in
      if bool_decide (current_count < initial_of g file) then
        EvLostJobs file (initial_of g file) current_count
          initial_size current_size
      else if bool_decide (initial_of g file < current_count) then
        EvGrew file (initial_of g file) current_count initial_size current_size
      else EvUnchanged file current_count current_size
  end.

(** What the diagnosis of one shrunken file prints. *)
Definition diagnosis_of (w : World) (g : globals) (file : string)
    : list event :=
  printed (diagnose_shrinkage w file (initial_of g file) g).

(** The diagnostic part of the output of [check_file_sizes_vs_initial]. *)
Definition diagnostics (w : World) (g : globals) (shrunken : list string)
    : list event :=
  if bool_decide (shrunken ≠ []) then
    EvDiagnosticHeader :: concat (map (diagnosis_of w g) shrunken)
  else [].

(** ** Sample worlds *)

Module Samples.

(** A table of postings with the given control numbers. *)
Definition postings (ids : list cell) : DataFrame :=
  {| columns := ["usajobs_control_number"; "positionTitle";
                 "hiringAgencyName"; "positionOpenDate"];
     rows := map (λ c, [c; VStr "Clerk"; VStr "Agency"; VStr "2025-01-01"])
               ids |}.

Fixpoint assoc {V} (key : string) (kvs : list (string * V)) : option V :=
  match kvs with
  | [] => None
  | (k, v) :: kvs' => if decide (k = key) then Some v else assoc key kvs'
  end.

(** A world from its data files (a table, or [None] for a file that
    cannot be parsed) and from what [HEAD] holds of them; the bytes that
    [git show] prints stand for the path they were committed under. *)
Definition world_of (files history : list (string * option DataFrame))
    : World :=
  {| data_files := files.*1;
     getsize := λ file,
       match assoc file files with Some _ => Some 4096 | None => None end;
     read_parquet := λ file, assoc file files ≫= id;
     git_show := λ file,
       Some (match assoc file history with
             | Some _ => (0, file)
             | None => (128, "")
             end);
     parquet_of_bytes := λ bytes, assoc bytes history ≫= id;
     list_of_set := elements;
     list_of_set_members := λ _, reflexivity _ |}.

(** An iteration order that lists the set of the members of [order] as
    [order] has them. *)
Definition listed (order : list string) (s : gset string) : list string :=
  if decide (NoDup order ∧ s = list_to_set order) then order else elements s.

Definition listed_members (order : list string) (s : gset string)
    : listed order s ≡ₚ elements s :=
  match decide (NoDup order ∧ s = list_to_set order) as d
    return (if d then order else elements s) ≡ₚ elements s
  with
  | left (conj Hnd Heq) =>
      eq_ind_r (λ s', order ≡ₚ elements s')
        (symmetry (elements_list_to_set order Hnd)) Heq
  | right _ => reflexivity _
  end.

(** The world [w] under an interpreter that iterates as [listed order]. *)
Definition iterating (order : list string) (w : World) : World :=
  {| data_files := data_files w;
     getsize := getsize w;
     read_parquet := read_parquet w;
     git_show := git_show w;
     parquet_of_bytes := parquet_of_bytes w;
     list_of_set := listed order;
     list_of_set_members := listed_members order |}.

Definition counts_of (counts : list (string * Z)) : globals :=
  {| initial_counts := list_to_map counts |}.

(** [a.parquet] went from 3 rows to 2, [b.parquet] from 1 row to 3. *)
Definition one_lost_one_grown : World :=
  world_of
    [("a.parquet", Some (postings [VStr "1"; VStr "2"]));
     ("b.parquet", Some (postings [VStr "5"; VStr "6"; VStr "7"]))]
    [("a.parquet", Some (postings [VStr "1"; VStr "2"; VStr "3"]))].

Definition three_and_one : globals :=
  counts_of [("a.parquet", 3); ("b.parquet", 1)].

(** [a.parquet] cannot be parsed any more, [b.parquet] grew. *)
Definition one_unreadable_one_grown : World :=
  world_of
    [("a.parquet", None);
     ("b.parquet", Some (postings [VStr "5"; VStr "6"; VStr "7"]))]
    [].

Definition only_grown : World :=
  world_of
    [("b.parquet", Some (postings [VStr "5"; VStr "6"; VStr "7"]))] [].

(** [a.parquet] kept its 3 rows, [b.parquet] grew. *)
Definition one_same_one_grown : World :=
  world_of
    [("a.parquet", Some (postings [VStr "1"; VStr "2"; VStr "3"]));
     ("b.parquet", Some (postings [VStr "5"; VStr "6"; VStr "7"]))]
    [].

(** Both files lost rows; what [HEAD] holds of [a.parquet] cannot be
    parsed. *)
Definition two_lost_bad_history : World :=
  world_of
    [("a.parquet", Some (postings [VStr "1"; VStr "2"]));
     ("b.parquet", Some (postings []))]
    [("a.parquet", None);
     ("b.parquet", Some (postings [VStr "5"]))].

(** The control numbers are stored as integers; posting 3 was removed. *)
Definition integer_ids : World :=
  world_of
    [("a.parquet", Some (postings [VInt 1; VInt 2]))]
    [("a.parquet", Some (postings [VInt 1; VInt 2; VInt 3]))].

(** A posting with an empty control number and one with none. *)
Definition empty_id : World :=
  world_of [("a.parquet", Some (postings [VStr "7"; VStr ""; NA]))] [].

End Samples.

(** The count the snapshot stores for a file. *)
Definition snapshot_count (w : World) (file : string) : Z :=
  match read_parquet w file with
  | Some df => len df
  | None => 0
  end.

(** The line the snapshot prints for a file. *)
Definition snapshot_line (w : World) (file : string) : event :=
  match read_parquet w file with
  | Some df => EvInitialCount file (len df)
  | None => EvCouldNotRead file (ParquetError file)
  end.

(** The identifier column that [report_missing] filters the historical
    table by. *)
Definition id_column_name (old_df : DataFrame) : string :=
  if has_column "usajobs_control_number" old_df
  then "usajobs_control_number" else "usajobsControlNumber".

(** ** The rest of the script: paths, the collector, the summary *)

Module Path.

(** ['/' in path] *)
Fixpoint has_slash (path : string) : bool :=
  match path with
  | EmptyString => false
  | String c rest => bool_decide (String c EmptyString = "/") || has_slash rest
  end.

(** [os.path.basename(path)]: what follows the last slash, the whole
    path when it has none. *)
Fixpoint basename (path : string) : string :=
  match path with
  | EmptyString => EmptyString
  | String c rest =>
      if has_slash rest then basename rest
      else if bool_decide (String c EmptyString = "/") then rest
      else path
  end.

End Path.
Import Path.

(** The order of Python strings: by code point, which on UTF-8 bytes is
    [String.leb]. *)
Definition str_le (a b : string) : Prop := String.leb a b = true.

Fixpoint insert_sorted (name : string) (names : list string) : list string :=
  match names with
  | [] => [name]
  | first :: rest =>
      if String.leb name first then name :: first :: rest
      else first :: insert_sorted name rest
  end.

(** [sorted(names)] *)
Definition sorted (names : list string) : list string :=
  foldr insert_sorted [] names.

(** Each name is at most the next one. *)
Fixpoint ascending (names : list string) : Prop :=
  match names with
  | first :: (second :: _) as rest => str_le first second ∧ ascending rest
  | _ => True
  end.

(** What [subprocess.run(command, shell=True, check=True, ...)] does:
    it returns with the captured stdout, or raises [CalledProcessError]
    with the captured stderr ([None] when nothing was captured). *)
Inductive shell_result :=
  | Completed (stdout : string)
  | CalledProcessError (stderr : option string).

(** A line of the whole script: one printed by the functions above, or
    one that only [run_command], [calculate_job_additions] and [main]
    print. *)
Inductive line :=
  | Script (ev : event)
  | LnRunning (description : string)
  | LnCompleted (description : string)
  | LnFailed (description : string)
  | LnErrorOutput (stderr : option string)
  | LnBanner  (* the title and the rule under it *)
  | LnCollectionCompleted
  | LnCollectionFailed
  | LnCheckingIntegrity
  | LnChecksFailed
  | LnNoFilesChanged
  | LnNoChangesDetected
  | LnCalculating
  | LnJobsAdded (filename : string) (added initial_count current_count : Z)
  | LnNoNewJobs (filename : string) (current_count : Z)
  | LnCouldNotRead (file : string) (e : exn)
  | LnSummaryHeader  (* the title of the summary between two rules *)
  | LnJobsPerFile
  | LnFileAdded (filename : string) (count : Z)
  | LnFileZero (filename : string)
  | LnSummaryError (e : exn)
  | LnSuccess  (* the success line and the two lines on the next steps *).

(** A run of the outer functions of the script. *)
Record report (A : Type) := {
  returned : result A;
  globals_after : globals;
  lines : list line
}.
Arguments returned {A} _.
Arguments globals_after {A} _.
Arguments lines {A} _.

Definition Main (A : Type) : Type := globals → report A.

#[global] Instance Main_ret : MRet Main := λ A a g,
  {| returned := Ok a; globals_after := g; lines := [] |}.

#[global] Instance Main_bind : MBind Main := λ A B k m g,
  let r := m g in
  match returned r with
  | Ok a =>
      let r' := k a (globals_after r) in
      {| returned := returned r'; globals_after := globals_after r';
         lines := lines r ++ lines r' |}
  | Raise e =>
      {| returned := Raise e; globals_after := globals_after r;
         lines := lines r |}
  end.

(** [print] in the outer functions. *)
Definition say (ln : line) : Main unit := λ g,
  {| returned := Ok (); globals_after := g; lines := [ln] |}.

(** A call of one of the functions above. *)
Definition script {A} (m : Py A) : Main A := λ g,
  let o := m g in
  {| returned := value o; globals_after := store o;
     lines := Script <$> printed o |}.

(** [try: body / except Exception as e: handler e] in the outer
    functions. *)
Definition main_try {A} (body : Main A) (handler : exn → Main A) : Main A :=
  λ g,
  let r := body g in
  match returned r with
  | Ok a => r
  | Raise e =>
      let r' := handler e (globals_after r) in
      {| returned := returned r'; globals_after := globals_after r';
         lines := lines r ++ lines r' |}
  end.

(** [for x in xs: body] in the outer functions. *)
Fixpoint main_for {A L} (xs : list A) (body : A → L → Main L) (locals : L)
    : Main L :=
  match xs with
  | [] => mret locals
  | x :: xs' => locals' ← body x locals; main_for xs' body locals'
  end.

(** [run_command(command, description, stream_output)]; the shell is
    given the command and whether its output is captured. *)
Definition run_command (shell : string → bool → shell_result)
    (command description : string) (stream_output : bool)
    : Main (bool * option string) :=
  say (LnRunning description);;
  match shell command (negb stream_output) with
  | Completed stdout =>
      say (LnCompleted description);;
      mret (true, Some (if stream_output then "" else stdout))
  | CalledProcessError stderr =>
      say (LnFailed description);;
      (if negb stream_output then say (LnErrorOutput stderr) else mret ());;
      mret (false, stderr)
  end.

(** One turn of the loop of [calculate_job_additions]. *)
Definition job_addition (w : World) (initial_counts : gmap string Z)
    (file : string) (job_additions : gmap string Z)
    : Main (gmap string Z) :=
  main_try
    (df ← script (pd_read_parquet w file);
     let current_count := len df in
     let initial_count := default 0 (initial_counts !! file) in
     let added := current_count - initial_count in
     let filename := basename file in
     (if bool_decide (added > 0) then
        say (LnJobsAdded filename added initial_count current_count)
      else say (LnNoNewJobs filename current_count));;
     mret (<[filename := added]> job_additions))
    (λ e,
     say (LnCouldNotRead file e);;
     mret (<[basename file := 0]> job_additions)).

(** [calculate_job_additions(initial_counts)] *)
Definition calculate_job_additions (w : World)
    (initial_counts : gmap string Z) : Main (gmap string Z) :=
  say LnCalculating;;
  main_for (data_files w) (job_addition w initial_counts) ∅.

(** The line of the summary for one file name. *)
Definition summary_line (job_additions : gmap string Z) (filename : string)
    : Main unit :=
  count ← script (or_raise (KeyError filename) (job_additions !! filename));
  if bool_decide (count > 0) then say (LnFileAdded filename count)
  else say (LnFileZero filename).

(** The [try] block of the summary of [main]. *)
Definition summary (job_additions : gmap string Z) : Main unit :=
  if bool_decide (job_additions ≠ ∅) then
    say LnJobsPerFile;;
    main_for (sorted (elements (dom job_additions)))
      (λ filename (_ : unit), summary_line job_additions filename) ()
  else mret ().

(** What [main] meets in one run: the data directory before the
    collector runs, the shell that runs it, the data directory after. *)
Record Timeline := {
  before : World;
  shell : string → bool → shell_result;
  after : World
}.

Definition current_cmd : string :=
  "python ./collect_current_data.py --data-dir ../../data".

(** [main()]. Its local [initial_counts] is the dictionary that
    [record_initial_job_counts] returns, which nothing changes later. *)
Definition main (tl : Timeline) : Main unit :=
  say LnBanner;;
  initial_sizes ← script (record_initial_file_sizes (before tl));
  initial_counts ← script (record_initial_job_counts (before tl));
  collected ←
    run_command (shell tl) current_cmd "Collecting current jobs" true;
  let success : bool := collected.1 in
  (if success then say LnCollectionCompleted else say LnCollectionFailed);;
  say LnCheckingIntegrity;;
  verdict ← script (check_file_sizes_vs_initial (after tl) initial_sizes);
  let files_ok : bool := verdict.1 in
  let files_changed : bool := verdict.2 in
  if negb files_ok then say LnChecksFailed
  else if negb files_changed then
    say LnNoFilesChanged;;
    say LnNoChangesDetected
  else
    job_additions ← calculate_job_additions (after tl) initial_counts;
    say LnSummaryHeader;;
    main_try (summary job_additions) (λ e, say (LnSummaryError e));;
    say LnSuccess.

#[global] Arguments job_addition : simpl never.
#[global] Arguments calculate_job_additions : simpl never.
#[global] Arguments summary : simpl never.
#[global] Arguments main : simpl never.
#[global] Arguments record_initial_file_sizes : simpl never.

(** The entry that [calculate_job_additions] stores for a file. *)
Definition addition (w : World) (initial_counts : gmap string Z)
    (file : string) : Z :=
  match read_parquet w file with
  | Some df => len df - default 0 (initial_counts !! file)
  | None => 0
  end.

(** The line that [calculate_job_additions] prints for a file. *)
Definition addition_line (w : World) (initial_counts : gmap string Z)
    (file : string) : line :=
  match read_parquet w file with
  | Some df =>
      let initial_count := default 0 (initial_counts !! file) in
      if bool_decide (len df - initial_count > 0) then
        LnJobsAdded (basename file) (len df - initial_count) initial_count
          (len df)
      else LnNoNewJobs (basename file) (len df)
  | None => LnCouldNotRead file (ParquetError file)
  end.

(** The line of the summary for a file name and its count. *)
Definition file_line (job_additions : gmap string Z) (filename : string)
    : line :=
  let count := default 0 (job_additions !! filename) in
  if bool_decide (count > 0) then LnFileAdded filename count
  else LnFileZero filename.

(** The file names of the summary lines, in the order printed. *)
Fixpoint summary_names (ls : list line) : list string :=
  match ls with
  | [] => []
  | LnFileAdded filename _ :: rest => filename :: summary_names rest
  | LnFileZero filename :: rest => filename :: summary_names rest
  | _ :: rest => summary_names rest
  end.

(** The output from the announcement of the integrity check on. *)
Fixpoint from_check (ls : list line) : list line :=
  match ls with
  | [] => []
  | LnCheckingIntegrity :: rest => ls
  | _ :: rest => from_check rest
  end.

(** The lines that [main] prints before the integrity check. *)
Definition opening_line (ln : line) : Prop :=
  match ln with
  | LnBanner | Script _ | LnRunning _ | LnCompleted _ | LnFailed _
  | LnErrorOutput _ | LnCollectionCompleted | LnCollectionFailed => True
  | _ => False
  end.

(** What [main] prints after the check, by its verdict. *)
Definition closing (w : World) (g : globals) (verdict : bool * bool)
    : list line :=
  if negb verdict.1 then [LnChecksFailed]
  else if negb verdict.2 then [LnNoFilesChanged; LnNoChangesDetected]
  else
    let counted := calculate_job_additions w (initial_counts g) g in
    match returned counted with
    | Ok job_additions =>
        lines counted ++
        LnSummaryHeader ::
        lines (main_try (summary job_additions)
                 (λ e, say (LnSummaryError e)) g) ++
        [LnSuccess]
    | Raise _ => lines counted
    end.

(** ** Sample runs *)

Module Runs.

Definition jobs_2024 : string := "../../data/current_jobs_2024.parquet".
Definition jobs_2025 : string := "../../data/current_jobs_2025.parquet".

Definition collector_ok : string → bool → shell_result :=
  λ _ _, Completed "".

(** Two files, of 3 rows and of 1 row. *)
Definition start : World :=
  Samples.world_of
    [(jobs_2025, Some (Samples.postings [VStr "5"]));
     (jobs_2024, Some (Samples.postings [VStr "1"; VStr "2"; VStr "3"]))]
    [].

(** The file of 2024 kept its rows, the one of 2025 now has 3. *)
Definition grown : World :=
  Samples.world_of
    [(jobs_2025, Some (Samples.postings [VStr "5"; VStr "6"; VStr "7"]));
     (jobs_2024, Some (Samples.postings [VStr "1"; VStr "2"; VStr "3"]))]
    [].

(** The file of 2024 is down to 2 rows, the one of 2025 has 3. *)
Definition shrunk : World :=
  Samples.world_of
    [(jobs_2025, Some (Samples.postings [VStr "5"; VStr "6"; VStr "7"]));
     (jobs_2024, Some (Samples.postings [VStr "1"; VStr "2"]))]
    [(jobs_2024, Some (Samples.postings [VStr "1"; VStr "2"; VStr "3"]))].

Definition growing : Timeline :=
  {| before := start; shell := collector_ok; after := grown |}.

Definition losing : Timeline :=
  {| before := start; shell := collector_ok; after := shrunk |}.

Definition twelve : list string :=
  ["00"; "01"; "02"; "03"; "04"; "05"; "06"; "07"; "08"; "09"; "10"; "11"].

(** [HEAD] holds twelve postings, the file one of them; the interpreter
    iterates over the eleven others in an order of its own. *)
Definition many_removed : World :=
  Samples.iterating
    ["11"; "03"; "02"; "07"; "01"; "09"; "04"; "10"; "06"; "08"; "05"]
    (Samples.world_of
       [("a.parquet", Some (Samples.postings [VStr "00"]))]
       [("a.parquet", Some (Samples.postings (VStr <$> twelve)))]).

End Runs.

(** ** Further vocabulary *)

(** A computation whose value and output do not depend on the globals. *)
Definition oblivious {A} (m : Py A) : Prop :=
  ∀ g g', value (m g) = value (m g') ∧ printed (m g) = printed (m g').

(** The size the snapshot stores for a file. *)
Definition snapshot_size (w : World) (file : string) : Z :=
  default 0 (getsize w file).

(** The line of [diagnose_shrinkage] on the difference of the counts. *)
Definition delta_line (initial_count current_count : Z) : event :=
  if bool_decide (current_count - initial_count > 0) then
    EvJobsAdded (current_count - initial_count)
  else if bool_decide (current_count - initial_count < 0) then
    EvJobsLost (- (current_count - initial_count))
  else EvJobsUnchanged.

(** ** The table model on small inputs *)

Example len_two :
  len {| columns := ["a"]; rows := [[VStr "x"]; [NA]] |} = 2.
Proof. reflexivity. Qed.

Example id_set_mixed :
  id_set [VStr "7"; NA; VInt 42; VStr "7"] = {["7"; "42"]}.
Proof. vm_compute. reflexivity. Qed.

(** ** Reasoning about runs *)

Section runs.
Context {A B : Type}.

Lemma bind_Ok (m : Py A) (k : A → Py B) g a :
  value (m g) = Ok a →
  (m ≫= k) g =
    {| value := value (k a (store (m g)));
       store := store (k a (store (m g)));
       printed := printed (m g) ++ printed (k a (store (m g))) |}.
Proof. intros Hm. unfold mbind, Py_bind. by rewrite Hm. Qed.
End runs.

Section closure.
Context {A B : Type}.
Implicit Types (m : Py A) (k : A → Py B).

Lemma quiet_ret (a : A) : quiet (mret a).
Proof. done. Qed.

Lemma quiet_raise (e : exn) : quiet (raise (A:=A) e).
Proof. done. Qed.

Lemma quiet_or_raise e (r : option A) : quiet (or_raise e r).
Proof. by destruct r. Qed.

Lemma quiet_bind m k : quiet m → (∀ a, quiet (k a)) → quiet (m ≫= k).
Proof.
  intros Hm Hk g. unfold mbind, Py_bind.
  destruct (value (m g)) as [a|e]; simpl; [|apply Hm].
  rewrite Hk. apply Hm.
Qed.

Lemma quiet_try_except (body : Py A) handler :
  quiet body → (∀ e, quiet (handler e)) → quiet (try_except body handler).
Proof.
  intros Hb Hh g. unfold try_except.
  destruct (value (body g)) as [a|e]; simpl; [apply Hb|].
  rewrite Hh. apply Hb.
Qed.

Lemma prints_ret P (a : A) : prints P (mret a).
Proof. intros g. constructor. Qed.

Lemma prints_raise P (e : exn) : prints P (raise (A:=A) e).
Proof. intros g. constructor. Qed.

Lemma prints_or_raise P e (r : option A) : prints P (or_raise e r).
Proof. destruct r; [apply prints_ret | apply prints_raise]. Qed.

Lemma prints_bind P m k :
  prints P m → (∀ a, prints P (k a)) → prints P (m ≫= k).
Proof.
  intros Hm Hk g. unfold mbind, Py_bind.
  destruct (value (m g)) as [a|e]; simpl; [|apply Hm].
  apply Forall_app. split; [apply Hm | apply Hk].
Qed.

Lemma prints_try_except P (body : Py A) handler :
  prints P body → (∀ e, prints P (handler e)) →
  prints P (try_except body handler).
Proof.
  intros Hb Hh g. unfold try_except.
  destruct (value (body g)) as [a|e]; simpl; [apply Hb|].
  apply Forall_app. split; [apply Hb | apply Hh].
Qed.

End closure.

Section loops.
Context {A B : Type}.

Lemma quiet_for_in (xs : list B) (body : B → A → Py A) l :
  (∀ x l', quiet (body x l')) → quiet (for_in xs body l).
Proof.
  intros Hb. revert l.
  induction xs as [|x xs IH]; intros l; simpl; [done|].
  apply quiet_bind; [apply Hb | intros l'; apply IH].
Qed.

Lemma prints_for_in P (xs : list B) (body : B → A → Py A) l :
  (∀ x l', prints P (body x l')) → prints P (for_in xs body l).
Proof.
  intros Hb. revert l.
  induction xs as [|x xs IH]; intros l; simpl; [apply prints_ret|].
  apply prints_bind; [apply Hb | intros l'; apply IH].
Qed.
End loops.

Lemma quiet_print ev : quiet (print ev).
Proof. done. Qed.

Lemma prints_print (P : event → Prop) ev : P ev → prints P (print ev).
Proof. intros HP g. by repeat constructor. Qed.

Lemma quiet_initial_counts_get file dflt : quiet (initial_counts_get file dflt).
Proof. done. Qed.

Lemma prints_initial_counts_get P file dflt :
  prints P (initial_counts_get file dflt).
Proof. intros g. constructor. Qed.

(** Splits a goal on a composed computation into goals on its parts. *)
Ltac step_quiet :=
  first
    [ apply quiet_ret | apply quiet_print | apply quiet_raise
    | apply quiet_or_raise | apply quiet_initial_counts_get
    | apply quiet_bind; [|intros ?]
    | apply quiet_try_except; [|intros ?]
    | apply quiet_for_in; intros ? ?
    | case_match ].

Ltac step_prints :=
  first
    [ apply prints_ret | apply prints_raise | apply prints_or_raise
    | apply prints_initial_counts_get
    | apply prints_print; done
    | apply prints_bind; [|intros ?]
    | apply prints_try_except; [|intros ?]
    | apply prints_for_in; intros ? ?
    | case_match ].

Lemma quiet_control_numbers old_df current_df :
  quiet (control_numbers old_df current_df).
Proof. unfold control_numbers, column. repeat step_quiet. Qed.

Lemma quiet_report_missing w old_df missing :
  quiet (report_missing w old_df missing).
Proof. unfold report_missing, column. repeat step_quiet. Qed.

Lemma quiet_diagnose_body w file_path initial_count :
  quiet (diagnose_body w file_path initial_count).
Proof.
  unfold diagnose_body, pd_read_parquet, subprocess_git_show, pd_read_temp.
  repeat first
    [ apply quiet_control_numbers | apply quiet_report_missing | step_quiet ].
Qed.

Lemma prints_control_numbers old_df current_df :
  prints diagnosis_detail (control_numbers old_df current_df).
Proof. unfold control_numbers, column. repeat step_prints. Qed.

Lemma prints_report_missing w old_df missing :
  prints diagnosis_detail (report_missing w old_df missing).
Proof. unfold report_missing, column. repeat step_prints. Qed.

Lemma prints_diagnose_body w file_path initial_count :
  prints diagnosis_detail (diagnose_body w file_path initial_count).
Proof.
  unfold diagnose_body, pd_read_parquet, subprocess_git_show, pd_read_temp.
  repeat first
    [ apply prints_control_numbers | apply prints_report_missing
    | step_prints ].
Qed.

(** [diagnose_shrinkage] always returns, whatever its [try] block did, and
    leaves the globals alone. *)
Lemma diagnose_shrinkage_run w file_path initial_count g :
  diagnose_shrinkage w file_path initial_count g =
    {| value := Ok ();
       store := g;
       printed :=
         EvDiagnosing file_path ::
         printed (diagnose_body w file_path initial_count g) ++
         error_line (value (diagnose_body w file_path initial_count g)) |}.
Proof.
  unfold diagnose_shrinkage.
  erewrite bind_Ok by reflexivity. simpl.
  pose proof (quiet_diagnose_body w file_path initial_count g) as Hq.
  unfold try_except.
  destruct (value (diagnose_body w file_path initial_count g)) as [[]|e] eqn:Hv;
    simpl; rewrite ?Hv, Hq, ?app_nil_r; done.
Qed.

(** One turn of the loop: one check appended, one line printed. *)
Lemma check_file_run w initial_sizes file l g :
  check_file w initial_sizes file l g =
    {| value :=
         Ok {| size_checks := size_checks l ++ [passes w g file];
               files_changed := files_changed l || grew w g file;
               shrunken_files :=
                 shrunken_files l ++ (if lost w g file then [file] else []) |};
       store := g;
       printed := [check_line w initial_sizes g file] |}.
Proof.
  unfold check_file, passes, grew, lost, check_line, observe, try_except,
    os_getsize, pd_read_parquet, initial_counts_get, initial_of, or_raise,
    print, raise, mbind, Py_bind, mret, Py_ret.
  destruct (getsize w file) as [current_size|]; simpl;
    [destruct (read_parquet w file) as [current_df|]; simpl|];
    rewrite ?orb_false_r, ?app_nil_r; try done.
  repeat case_bool_decide; simpl;
    rewrite ?orb_false_r, ?orb_true_r, ?app_nil_r; try done; lia.
Qed.

(** The whole loop of [check_file_sizes_vs_initial]. *)
Lemma check_loop_run w initial_sizes g files l :
  for_in files (check_file w initial_sizes) l g =
    {| value :=
         Ok {| size_checks := size_checks l ++ map (passes w g) files;
               files_changed := files_changed l || existsb (grew w g) files;
               shrunken_files :=
                 shrunken_files l ++ List.filter (lost w g) files |};
       store := g;
       printed := map (check_line w initial_sizes g) files |}.
Proof.
  revert l. induction files as [|file files IH]; intros l; simpl.
  - rewrite !app_nil_r, orb_false_r. by destruct l.
  - erewrite bind_Ok by (rewrite check_file_run; reflexivity).
    rewrite check_file_run. simpl. rewrite IH. simpl.
    rewrite <- !app_assoc, orb_assoc. simpl.
    by destruct (lost w g file).
Qed.

Lemma diagnose_one_run w g file :
  (initial_count ← initial_counts_get file 0;
   diagnose_shrinkage w file initial_count) g =
    {| value := Ok (); store := g; printed := diagnosis_of w g file |}.
Proof.
  unfold mbind, Py_bind, initial_counts_get, diagnosis_of, initial_of.
  cbn [value store printed app].
  by rewrite diagnose_shrinkage_run.
Qed.

(** The loop over [shrunken_files]: every file is diagnosed, in order. *)
Lemma diagnose_loop_run w g files :
  for_in files (λ file (_ : unit),
    initial_count ← initial_counts_get file 0;
    diagnose_shrinkage w file initial_count) () g =
    {| value := Ok ();
       store := g;
       printed := concat (map (diagnosis_of w g) files) |}.
Proof.
  induction files as [|file files IH]; simpl; [done|].
  erewrite bind_Ok by (rewrite diagnose_one_run; reflexivity).
  rewrite diagnose_one_run. simpl. by rewrite IH.
Qed.

Lemma forallb_id_map {A} (f : A → bool) (xs : list A) :
  forallb id (map f xs) = forallb f xs.
Proof. induction xs as [|x xs IH]; simpl; [done|]. by rewrite IH. Qed.

(** [check_file_sizes_vs_initial] always returns; its verdict and its
    output, from what the loop saw of each file. *)
Lemma check_run w initial_sizes g :
  check_file_sizes_vs_initial w initial_sizes g =
    {| value :=
         Ok (if forallb (passes w g) (data_files w)
             then (true, existsb (grew w g) (data_files w))
             else (false, false));
       store := g;
       printed :=
         EvChecking ::
         map (check_line w initial_sizes g) (data_files w) ++
         diagnostics w g (List.filter (lost w g) (data_files w)) ++
         (if forallb (passes w g) (data_files w) then [] else [EvCritical]) |}.
Proof.
  unfold check_file_sizes_vs_initial.
  erewrite bind_Ok by reflexivity. simpl.
  erewrite bind_Ok by (rewrite check_loop_run; reflexivity).
  rewrite check_loop_run. simpl.
  set (shrunken := List.filter (lost w g) (data_files w)).
  assert (∃ out, (if bool_decide (shrunken ≠ []) then
             print EvDiagnosticHeader;;
             for_in shrunken (λ file (_ : unit),
               initial_count ← initial_counts_get file 0;
               diagnose_shrinkage w file initial_count) ()
           else mret ()) g = {| value := Ok (); store := g; printed := out |}
          ∧ out = diagnostics w g shrunken) as (out & Hdiag & ->).
  { unfold diagnostics. case_bool_decide.
    - eexists. split; [|reflexivity].
      erewrite bind_Ok by reflexivity. simpl.
      by rewrite diagnose_loop_run.
    - by eexists. }
  erewrite bind_Ok by (rewrite Hdiag; reflexivity).
  rewrite Hdiag. simpl. rewrite forallb_id_map.
  destruct (forallb (passes w g) (data_files w)); simpl;
    by rewrite ?app_nil_r.
Qed.

(** ** The verdict of the check *)

Lemma observe_counted w file current_size current_df :
  getsize w file = Some current_size →
  read_parquet w file = Some current_df →
  observe w file = inr (current_size, len current_df).
Proof. intros Hs Hr. unfold observe. by rewrite Hs, Hr. Qed.

Lemma observe_unreadable w file :
  read_parquet w file = None → ∃ e, observe w file = inl e.
Proof.
  intros Hr. unfold observe. rewrite Hr.
  destruct (getsize w file); eauto.
Qed.

Lemma observe_inr w file current_size current_count :
  observe w file = inr (current_size, current_count) →
  ∃ current_df,
    getsize w file = Some current_size ∧
    read_parquet w file = Some current_df ∧
    current_count = len current_df.
Proof.
  unfold observe. intros Ho.
  destruct (getsize w file) as [sz|]; [|done].
  destruct (read_parquet w file) as [df|]; [|done].
  exists df. by inversion Ho.
Qed.

(** A counted file below its initial count is lost and does not pass. *)
Lemma lost_file_fails_all w g file current_size current_df :
  file ∈ data_files w →
  getsize w file = Some current_size →
  read_parquet w file = Some current_df →
  len current_df < initial_of g file →
  forallb (passes w g) (data_files w) = false ∧ lost w g file = true.
Proof.
  intros Hin Hs Hr Hlt. split.
  - apply not_true_is_false. intros Hall.
    rewrite forallb_forall in Hall.
    specialize (Hall file (proj1 (list_elem_of_In _ _) Hin)).
    unfold passes in Hall. rewrite (observe_counted _ _ _ _ Hs Hr) in Hall.
    apply bool_decide_eq_true in Hall. lia.
  - unfold lost. rewrite (observe_counted _ _ _ _ Hs Hr).
    by apply bool_decide_eq_true.
Qed.

(** C1. One tracked file whose current count is below its initial count
    makes the checker return ok = false, whatever the other tracked files
    look like. *)
Theorem loss_fails_the_check w initial_sizes g file current_size current_df :
  file ∈ data_files w →
  getsize w file = Some current_size →
  read_parquet w file = Some current_df →
  len current_df < initial_of g file →
  ∃ changed,
    value (check_file_sizes_vs_initial w initial_sizes g) = Ok (false, changed).
Proof.
  intros Hin Hs Hr Hlt. rewrite check_run. simpl.
  destruct (lost_file_fails_all w g file current_size current_df)
    as [-> _]; try done.
  by eexists.
Qed.

Lemma loss_fails_the_check_witness :
  ∃ changed,
    value (check_file_sizes_vs_initial Samples.one_lost_one_grown ∅
             Samples.three_and_one) = Ok (false, changed).
Proof.
  apply (loss_fails_the_check Samples.one_lost_one_grown ∅
           Samples.three_and_one "a.parquet" 4096
           (Samples.postings [VStr "1"; VStr "2"])).
  - vm_compute. left.
  - reflexivity.
  - reflexivity.
  - vm_compute. reflexivity.
Defined.

(** C3. When every tracked file can be counted and holds at least its
    initial count, the checker returns ok = true, and changed = true
    exactly when some file holds more than its initial count. *)
Theorem no_loss_passes_the_check w initial_sizes g :
  (∀ file, file ∈ data_files w →
     ∃ current_size current_df,
       getsize w file = Some current_size ∧
       read_parquet w file = Some current_df ∧
       initial_of g file ≤ len current_df) →
  ∃ changed,
    value (check_file_sizes_vs_initial w initial_sizes g) = Ok (true, changed) ∧
    (changed = true ↔
     ∃ file current_df,
       file ∈ data_files w ∧
       read_parquet w file = Some current_df ∧
       initial_of g file < len current_df).
Proof.
  intros Hall. rewrite check_run. simpl.
  assert (forallb (passes w g) (data_files w) = true) as ->.
  { apply forallb_forall. intros file Hin.
    apply list_elem_of_In in Hin.
    destruct (Hall file Hin) as (sz & df & Hs & Hr & Hle).
    unfold passes. rewrite (observe_counted _ _ _ _ Hs Hr).
    by apply bool_decide_eq_true. }
  eexists. split; [reflexivity|].
  rewrite existsb_exists. split.
  - intros (file & Hin & Hgrew). apply list_elem_of_In in Hin.
    destruct (Hall file Hin) as (sz & df & Hs & Hr & _).
    unfold grew in Hgrew. rewrite (observe_counted _ _ _ _ Hs Hr) in Hgrew.
    apply bool_decide_eq_true in Hgrew. by exists file, df.
  - intros (file & df & Hin & Hr & Hlt).
    destruct (Hall file Hin) as (sz & df' & Hs & Hr' & _).
    exists file. split; [by apply list_elem_of_In|].
    unfold grew. rewrite (observe_counted _ _ _ _ Hs Hr').
    apply bool_decide_eq_true. congruence.
Qed.

Lemma no_loss_passes_the_check_witness :
  ∃ changed,
    value (check_file_sizes_vs_initial Samples.one_same_one_grown ∅
             Samples.three_and_one) = Ok (true, changed) ∧
    (changed = true ↔
     ∃ file current_df,
       file ∈ data_files Samples.one_same_one_grown ∧
       read_parquet Samples.one_same_one_grown file = Some current_df ∧
       initial_of Samples.three_and_one file < len current_df).
Proof.
  apply (no_loss_passes_the_check Samples.one_same_one_grown ∅
           Samples.three_and_one).
  intros file Hin.
  apply list_elem_of_In in Hin. simpl in Hin.
  destruct Hin as [<-|[<-|[]]].
  - exists 4096, (Samples.postings [VStr "1"; VStr "2"; VStr "3"]).
    repeat split. vm_compute. discriminate.
  - exists 4096, (Samples.postings [VStr "5"; VStr "6"; VStr "7"]).
    repeat split. vm_compute. discriminate.
Defined.

(** C10. Whenever the checker returns ok = false it returns
    changed = false as well, also when some tracked file grew. *)
Theorem failure_reports_no_change w initial_sizes g :
  fst <$> verdict_of (check_file_sizes_vs_initial w initial_sizes g)
    = Some false →
  snd <$> verdict_of (check_file_sizes_vs_initial w initial_sizes g)
    = Some false.
Proof.
  unfold verdict_of. rewrite check_run. simpl.
  by destruct (forallb (passes w g) (data_files w)).
Qed.

Lemma failure_reports_no_change_witness :
  grew Samples.one_lost_one_grown Samples.three_and_one "b.parquet" = true ∧
  snd <$> verdict_of (check_file_sizes_vs_initial Samples.one_lost_one_grown ∅
                        Samples.three_and_one) = Some false.
Proof.
  split; [vm_compute; reflexivity|].
  apply (failure_reports_no_change Samples.one_lost_one_grown ∅
           Samples.three_and_one).
  vm_compute. reflexivity.
Defined.

(** ** What the check prints *)

Lemma check_line_lost w initial_sizes g f file a b c d :
  check_line w initial_sizes g f = EvLostJobs file a b c d →
  f = file ∧ lost w g f = true.
Proof.
  unfold check_line, lost.
  destruct (observe w f) as [e|[sz n]]; [done|].
  repeat case_bool_decide; intros Heq; inversion Heq; subst; by split.
Qed.

Lemma check_line_not_diagnosis w initial_sizes g f :
  ¬ diagnosis_detail (check_line w initial_sizes g f) ∧
  ∀ file, check_line w initial_sizes g f ≠ EvDiagnosing file.
Proof.
  unfold check_line.
  destruct (observe w f) as [e|[sz n]]; [|repeat case_bool_decide];
    (split; [simpl; tauto | discriminate]).
Qed.

Lemma diagnosis_of_events w g file ev :
  ev ∈ diagnosis_of w g file → ev = EvDiagnosing file ∨ diagnosis_detail ev.
Proof.
  unfold diagnosis_of. rewrite diagnose_shrinkage_run. simpl.
  rewrite elem_of_cons, elem_of_app.
  intros [->|[Hin|Hin]]; [by left|right..].
  - pose proof (prints_diagnose_body w file (initial_of g file) g) as Hall.
    rewrite Forall_forall in Hall. by apply Hall.
  - destruct (value _) as [|e]; simpl in Hin.
    + by apply elem_of_nil in Hin.
    + apply list_elem_of_singleton in Hin. by subst.
Qed.

Lemma diagnosis_of_starts w g file : EvDiagnosing file ∈ diagnosis_of w g file.
Proof. unfold diagnosis_of. rewrite diagnose_shrinkage_run. simpl. left. Qed.

Lemma elem_of_concat {A} (x : A) (ls : list (list A)) :
  x ∈ concat ls ↔ ∃ l, x ∈ l ∧ l ∈ ls.
Proof.
  rewrite list_elem_of_In, in_concat. split.
  - intros (l & Hl & Hx). exists l. by rewrite !list_elem_of_In.
  - intros (l & Hx & Hl). exists l. by rewrite <- !list_elem_of_In.
Qed.

Lemma diagnostics_events w g files ev :
  ev ∈ diagnostics w g files →
  ev = EvDiagnosticHeader ∨
  ∃ file, file ∈ files ∧ (ev = EvDiagnosing file ∨ diagnosis_detail ev).
Proof.
  unfold diagnostics. case_bool_decide; [|by intros ?%elem_of_nil].
  rewrite elem_of_cons. intros [->|Hin]; [by left|right].
  apply elem_of_concat in Hin as (out & Hev & Hout).
  apply list_elem_of_fmap in Hout as (file & -> & Hfile).
  exists file. split; [done|]. by eapply diagnosis_of_events.
Qed.

Lemma diagnostics_cover w g files file :
  file ∈ files → EvDiagnosing file ∈ diagnostics w g files.
Proof.
  intros Hin. unfold diagnostics.
  rewrite bool_decide_true by (intros ->; by apply elem_of_nil in Hin).
  right. apply elem_of_concat. exists (diagnosis_of w g file).
  split; [apply diagnosis_of_starts|].
  apply list_elem_of_fmap. by exists file.
Qed.

(** Every line of the check's output, by where it comes from. *)
Lemma check_printed_cases w initial_sizes g ev :
  ev ∈ printed (check_file_sizes_vs_initial w initial_sizes g) →
  ev = EvChecking ∨
  (∃ file, file ∈ data_files w ∧ ev = check_line w initial_sizes g file) ∨
  ev = EvDiagnosticHeader ∨
  (∃ file, file ∈ data_files w ∧ lost w g file = true ∧
           (ev = EvDiagnosing file ∨ diagnosis_detail ev)) ∨
  ev = EvCritical.
Proof.
  rewrite check_run. simpl.
  rewrite elem_of_cons, !elem_of_app.
  intros [->|[Hin|[Hin|Hin]]]; [by left| | |].
  - apply list_elem_of_fmap in Hin as (file & -> & Hfile). right. left. eauto.
  - apply diagnostics_events in Hin as [->|(file & Hfile & Hev)]; [by auto|].
    apply list_elem_of_In, filter_In in Hfile as [Hfile Hlost].
    apply list_elem_of_In in Hfile. right. right. right. left. eauto.
  - destruct (forallb _ _); [by apply elem_of_nil in Hin|].
    apply list_elem_of_singleton in Hin. auto.
Qed.

Lemma check_prints_line w initial_sizes g file :
  file ∈ data_files w →
  check_line w initial_sizes g file
    ∈ printed (check_file_sizes_vs_initial w initial_sizes g).
Proof.
  intros Hin. rewrite check_run. simpl. right.
  apply elem_of_app. left. apply list_elem_of_fmap. by exists file.
Qed.

Lemma check_diagnoses_lost w initial_sizes g file :
  file ∈ data_files w → lost w g file = true →
  EvDiagnosing file ∈ printed (check_file_sizes_vs_initial w initial_sizes g).
Proof.
  intros Hin Hlost. rewrite check_run. simpl. right.
  apply elem_of_app. right. apply elem_of_app. left.
  apply diagnostics_cover, list_elem_of_In, filter_In.
  split; [by apply list_elem_of_In|done].
Qed.

(** A file that was not counted below its initial count is neither
    reported as having lost jobs nor diagnosed. *)
Lemma not_lost_not_reported w initial_sizes g file :
  lost w g file = false →
  (∀ a b c d,
     EvLostJobs file a b c d
       ∉ printed (check_file_sizes_vs_initial w initial_sizes g)) ∧
  EvDiagnosing file ∉ printed (check_file_sizes_vs_initial w initial_sizes g).
Proof.
  intros Hnot. split; [intros a b c d|];
    intros [?|[(f & Hf & Heq)|[?|[(f & Hf & Hlost & [Heq|Hd])|?]]]]
      %check_printed_cases; try done.
  - symmetry in Heq. apply check_line_lost in Heq as [-> Hlost]. congruence.
  - symmetry in Heq.
    by destruct (check_line_not_diagnosis w initial_sizes g f) as [_ Hne];
      apply Hne in Heq.
  - inversion Heq; subst. congruence.
Qed.

(** C2 (as the code has it). A tracked file that cannot be parsed at check
    time gets a "could not check" line of its own, is neither reported as
    having lost jobs nor diagnosed, and counts as a failed check: the
    verdict is ok = false, changed = false, whatever the other files look
    like. *)
Theorem unreadable_file_fails_the_check w initial_sizes g file :
  file ∈ data_files w →
  read_parquet w file = None →
  value (check_file_sizes_vs_initial w initial_sizes g) = Ok (false, false) ∧
  (∃ e, EvCouldNotCheck file e
          ∈ printed (check_file_sizes_vs_initial w initial_sizes g)) ∧
  (∀ a b c d,
     EvLostJobs file a b c d
       ∉ printed (check_file_sizes_vs_initial w initial_sizes g)) ∧
  EvDiagnosing file ∉ printed (check_file_sizes_vs_initial w initial_sizes g).
Proof.
  intros Hin Hr. destruct (observe_unreadable w file Hr) as [e He].
  split; [|split].
  - rewrite check_run. simpl.
    assert (forallb (passes w g) (data_files w) = false) as ->; [|done].
    apply not_true_is_false. intros Hall.
    rewrite forallb_forall in Hall.
    specialize (Hall file (proj1 (list_elem_of_In _ _) Hin)).
    unfold passes in Hall. by rewrite He in Hall.
  - exists e. pose proof (check_prints_line w initial_sizes g file Hin) as Hl.
    unfold check_line in Hl. by rewrite He in Hl.
  - apply not_lost_not_reported. unfold lost. by rewrite He.
Qed.

Lemma unreadable_file_fails_the_check_witness :
  value (check_file_sizes_vs_initial Samples.one_unreadable_one_grown ∅
           Samples.three_and_one) = Ok (false, false) ∧
  EvDiagnosing "a.parquet"
    ∉ printed (check_file_sizes_vs_initial Samples.one_unreadable_one_grown ∅
                 Samples.three_and_one).
Proof.
  destruct (unreadable_file_fails_the_check Samples.one_unreadable_one_grown ∅
              Samples.three_and_one "a.parquet") as (Hv & _ & _ & Hd).
  - vm_compute. left.
  - reflexivity.
  - split; [exact Hv | exact Hd].
Defined.

(** C2, as stated, fails: with [a.parquet] unreadable and [b.parquet]
    grown the verdict is ok = false, while the readable file alone gives
    ok = true, changed = true. *)
Lemma unreadable_file_sets_ok_false :
  read_parquet Samples.one_unreadable_one_grown "a.parquet" = None ∧
  value (check_file_sizes_vs_initial Samples.one_unreadable_one_grown ∅
           Samples.three_and_one) = Ok (false, false) ∧
  value (check_file_sizes_vs_initial Samples.only_grown ∅
           Samples.three_and_one) = Ok (true, true).
Proof. by vm_compute. Qed.

(** C6 (as the code has it). The checker leaves the snapshot as it was, so
    a second run over unchanged files returns what the first one returned
    and prints the same lines. *)
Theorem second_check_repeats_the_first w initial_sizes g :
  store (check_file_sizes_vs_initial w initial_sizes g) = g ∧
  check_file_sizes_vs_initial w initial_sizes
    (store (check_file_sizes_vs_initial w initial_sizes g)) =
  check_file_sizes_vs_initial w initial_sizes g.
Proof.
  assert (store (check_file_sizes_vs_initial w initial_sizes g) = g) as Hq
    by (by rewrite check_run).
  split; [done|]. by rewrite Hq.
Qed.

(** C6, as stated, fails: a file that grew makes the second run return
    changed = true again. *)
Lemma second_check_still_changed :
  value (check_file_sizes_vs_initial Samples.only_grown ∅
           (store (check_file_sizes_vs_initial Samples.only_grown ∅
                     Samples.three_and_one))) = Ok (true, true).
Proof. by vm_compute. Qed.

Lemma record_job_count_run w file g :
  record_job_count w file () g =
    {| value := Ok ();
       store := {| initial_counts :=
                     <[file := snapshot_count w file]> (initial_counts g) |};
       printed := [snapshot_line w file] |}.
Proof.
  unfold record_job_count, snapshot_count, snapshot_line, try_except,
    pd_read_parquet, or_raise, initial_counts_set, print, raise,
    mbind, Py_bind, mret, Py_ret.
  by destruct (read_parquet w file).
Qed.

Lemma record_loop_run w files g :
  for_in files (record_job_count w) () g =
    {| value := Ok ();
       store := {| initial_counts :=
                     foldl (λ m file, <[file := snapshot_count w file]> m)
                       (initial_counts g) files |};
       printed := map (snapshot_line w) files |}.
Proof.
  revert g. induction files as [|file files IH]; intros g; simpl.
  - by destruct g.
  - erewrite bind_Ok by (rewrite record_job_count_run; reflexivity).
    rewrite record_job_count_run. simpl. by rewrite IH.
Qed.

Lemma record_initial_job_counts_run w g :
  record_initial_job_counts w g =
    (let counts := foldl (λ m file, <[file := snapshot_count w file]> m)
                     (initial_counts g) (data_files w) in
     {| value := Ok counts;
        store := {| initial_counts := counts |};
        printed :=
          EvRecordingCounts :: map (snapshot_line w) (data_files w) |}).
Proof.
  unfold record_initial_job_counts.
  erewrite bind_Ok by reflexivity. simpl.
  erewrite bind_Ok by (rewrite record_loop_run; reflexivity).
  rewrite record_loop_run. simpl. by rewrite app_nil_r.
Qed.

Lemma lookup_recorded w files (m : gmap string Z) file :
  file ∈ files →
  foldl (λ m file, <[file := snapshot_count w file]> m) m files !! file
    = Some (snapshot_count w file).
Proof.
  revert m. induction files as [|f files IH]; intros m Hin; simpl.
  - by apply elem_of_nil in Hin.
  - destruct (decide (file ∈ files)) as [Hrest|Hrest]; [by apply IH|].
    apply elem_of_cons in Hin as [->|Hin]; [|done].
    clear IH. revert m. induction files as [|f' files IH]; intros m; simpl.
    + apply lookup_insert_eq.
    + apply not_elem_of_cons in Hrest as [Hne Hrest].
      rewrite insert_insert_ne by done. by apply IH.
Qed.



(** ** Diagnosis *)

(** C9. An exception raised inside the diagnosis of a file is caught
    there and printed as a diagnosis error that ends the report on that
    file; [diagnose_shrinkage] itself always returns, so every file that
    lost jobs is diagnosed, and the checker still returns ok = false. *)
Theorem diagnosis_errors_are_contained w initial_sizes g file
    current_size current_df :
  file ∈ data_files w →
  getsize w file = Some current_size →
  read_parquet w file = Some current_df →
  len current_df < initial_of g file →
  value (check_file_sizes_vs_initial w initial_sizes g) = Ok (false, false) ∧
  (∀ other, other ∈ data_files w → lost w g other = true →
     EvDiagnosing other
       ∈ printed (check_file_sizes_vs_initial w initial_sizes g)) ∧
  (∀ other initial_count g',
     value (diagnose_shrinkage w other initial_count g') = Ok () ∧
     store (diagnose_shrinkage w other initial_count g') = g') ∧
  (∀ other initial_count g' e,
     value (diagnose_body w other initial_count g') = Raise e →
     printed (diagnose_shrinkage w other initial_count g') =
       EvDiagnosing other ::
       printed (diagnose_body w other initial_count g') ++
       [EvDiagnosisError e]).
Proof.
  intros Hin Hs Hr Hlt. split; [|split; [|split]].
  - destruct (lost_file_fails_all w g file current_size current_df)
      as [Hfail _]; try done.
    rewrite check_run. simpl. by rewrite Hfail.
  - intros other Hother Hlost. by apply check_diagnoses_lost.
  - intros other initial_count g'. by rewrite diagnose_shrinkage_run.
  - intros other initial_count g' e He.
    rewrite diagnose_shrinkage_run. simpl. by rewrite He.
Qed.

Lemma diagnosis_errors_are_contained_witness :
  value (diagnose_body Samples.two_lost_bad_history "a.parquet" 3
           Samples.three_and_one) = Raise (ParquetError "a.parquet.temp") ∧
  value (check_file_sizes_vs_initial Samples.two_lost_bad_history ∅
           Samples.three_and_one) = Ok (false, false) ∧
  EvDiagnosing "b.parquet"
    ∈ printed (check_file_sizes_vs_initial Samples.two_lost_bad_history ∅
                 Samples.three_and_one).
Proof.
  split; [by vm_compute|].
  destruct (diagnosis_errors_are_contained Samples.two_lost_bad_history ∅
              Samples.three_and_one "a.parquet" 4096
              (Samples.postings [VStr "1"; VStr "2"]))
    as (Hv & Hall & _).
  - vm_compute. left.
  - reflexivity.
  - reflexivity.
  - vm_compute. reflexivity.
  - split; [exact Hv|]. apply Hall.
    + vm_compute. right. left.
    + vm_compute. reflexivity.
Defined.

(** ** Identifier sets *)

(** No identifier is in both differences of two sets. *)
Lemma missing_ids_new_ids_disjoint (old_ids current_ids : gset string) :
  missing_ids old_ids current_ids ## new_ids old_ids current_ids.
Proof.
  unfold missing_ids, new_ids. apply elem_of_disjoint.
  by intros id [Hold _]%elem_of_difference [_ Hnot]%elem_of_difference.
Qed.

Lemma difference_disjoint (X Y : gset string) : X ∖ Y ## Y.
Proof.
  apply elem_of_disjoint. by intros id [_ Hnot]%elem_of_difference Hin.
Qed.

(** The sizes of the two differences agree with the sizes of the two
    identifier sets. *)
Lemma removed_and_added_sizes (old_ids current_ids : gset string) :
  (size (missing_ids old_ids current_ids) + size current_ids =
   size (new_ids old_ids current_ids) + size old_ids)%nat.
Proof.
  unfold missing_ids, new_ids.
  rewrite <- !size_union by apply difference_disjoint.
  f_equal. apply set_eq. intros id.
  rewrite !elem_of_union, !elem_of_difference.
  destruct (decide (id ∈ old_ids)), (decide (id ∈ current_ids)); tauto.
Qed.

Lemma elem_of_id_set (series : list cell) (id : string) :
  id ∈ id_set series ↔ ∃ c, c ∈ series ∧ c ≠ NA ∧ str_of_cell c = id.
Proof.
  unfold id_set, astype_str, dropna.
  rewrite elem_of_list_to_set, list_elem_of_fmap. split.
  - intros (c & -> & Hc).
    apply list_elem_of_In, filter_In in Hc as [Hc Hna].
    exists c. split; [by apply list_elem_of_In|]. split; [|done].
    by destruct c.
  - intros (c & Hc & Hna & <-). exists c. split; [done|].
    apply list_elem_of_In, filter_In. split; [by apply list_elem_of_In|].
    by destruct c.
Qed.

Lemma col_index_Some name cols :
  name ∈ cols → ∃ i, col_index name cols = Some i.
Proof.
  induction cols as [|c cols IH]; [by intros ?%elem_of_nil|].
  intros Hin. simpl. destruct (decide (c = name)) as [|Hne]; [by eexists|].
  apply elem_of_cons in Hin as [->|Hin]; [done|].
  destruct (IH Hin) as [i ->]. by eexists.
Qed.

Lemma col_index_None name cols : name ∉ cols → col_index name cols = None.
Proof.
  induction cols as [|c cols IH]; [done|].
  intros [Hne Hnin]%not_elem_of_cons. simpl.
  rewrite decide_False by done. by rewrite IH.
Qed.

Lemma has_column_getitem name df :
  if has_column name df then ∃ series, getitem df name = Some series
  else getitem df name = None.
Proof.
  unfold has_column, getitem. case_bool_decide as Hin.
  - destruct (col_index_Some _ _ Hin) as [i ->]. by eexists.
  - by rewrite col_index_None.
Qed.

(** C8 (as the code has it). The extractor returns the values of the
    first recognized column that is present, as strings, leaving out the
    missing ones and nothing else; with no recognized column, or a file
    that cannot be parsed, it returns the empty set. *)
Theorem extractor_drops_missing_values w file_path g :
  ∃ ids,
    value (save_initial_snapshot w file_path g) = Ok ids ∧
    match read_parquet w file_path with
    | None => ids = ∅
    | Some df =>
        match getitem df "usajobs_control_number",
              getitem df "usajobsControlNumber" with
        | Some series, _ | None, Some series =>
            ∀ id, id ∈ ids ↔ ∃ c, c ∈ series ∧ c ≠ NA ∧ str_of_cell c = id
        | None, None => ids = ∅
        end
    end.
Proof.
  unfold save_initial_snapshot, try_except, pd_read_parquet, column, or_raise,
    raise, mbind, Py_bind, mret, Py_ret.
  destruct (read_parquet w file_path) as [df|]; simpl; [|by eexists].
  pose proof (has_column_getitem "usajobs_control_number" df) as H1.
  pose proof (has_column_getitem "usajobsControlNumber" df) as H2.
  destruct (has_column "usajobs_control_number" df).
  { destruct H1 as [series ->]. simpl. eexists. split; [done|].
    apply elem_of_id_set. }
  rewrite H1. destruct (has_column "usajobsControlNumber" df).
  { destruct H2 as [series ->]. simpl. eexists. split; [done|].
    apply elem_of_id_set. }
  rewrite H2. simpl. by eexists.
Qed.

(** C8, as stated, fails: an empty control number is a value like any
    other and stays in the set; only the missing one is dropped. *)
Lemma extractor_keeps_empty_string :
  read_parquet Samples.empty_id "a.parquet"
    = Some (Samples.postings [VStr "7"; VStr ""; NA]) ∧
  value (save_initial_snapshot Samples.empty_id "a.parquet" fresh_globals)
    = Ok {["7"; ""]}.
Proof. by vm_compute. Qed.

Lemma length_elements (X : gset string) : length (elements X) = size X.
Proof. done. Qed.

(** Whatever the order of the interpreter, [list(s)] has the members of
    [s], each once. *)
Lemma length_list_of_set w (s : gset string) :
  length (list_of_set w s) = size s.
Proof. by rewrite (list_of_set_members w s). Qed.

Lemma elem_of_list_of_set w (s : gset string) id :
  id ∈ list_of_set w s ↔ id ∈ s.
Proof. by rewrite (list_of_set_members w s), elem_of_elements. Qed.

Lemma NoDup_list_of_set w (s : gset string) : NoDup (list_of_set w s).
Proof. rewrite (list_of_set_members w s). apply NoDup_elements. Qed.

(** [isin] looks at the members of the list only. *)
Lemma cell_isin_list_of_set w (s : gset string) c :
  cell_isin (list_of_set w s) c = cell_isin (elements s) c.
Proof.
  destruct c as [|id|z]; simpl; [done| |done].
  apply bool_decide_ext. by rewrite elem_of_list_of_set, elem_of_elements.
Qed.

Lemma for_in_print {A} (line : A → event) (xs : list A) g :
  for_in xs (λ x (_ : unit), print (line x)) () g =
    {| value := Ok (); store := g; printed := map line xs |}.
Proof.
  induction xs as [|x xs IH]; simpl; [done|].
  erewrite bind_Ok by reflexivity. simpl. by rewrite IH.
Qed.

Lemma boolean_index_map {A} (p : A → bool) (xs : list A) :
  boolean_index xs (map p xs) = List.filter p xs.
Proof.
  induction xs as [|x xs IH]; simpl; [done|].
  rewrite IH. by destruct (p x).
Qed.

Lemma getitem_rows df name series :
  getitem df name = Some series →
  ∃ i, col_index name (columns df) = Some i ∧
       series = map (λ row, nth i row NA) (rows df).
Proof.
  unfold getitem. destruct (col_index name (columns df)) as [i|]; [|done].
  intros [= <-]. by exists i.
Qed.

(** Up to ten removed identifiers: one line per row of the historical
    table whose identifier cell is one of them. *)
Lemma report_missing_small w old_df missing series g :
  getitem old_df (id_column_name old_df) = Some series →
  missing ≠ ∅ → (size missing ≤ 10)%nat →
  printed (report_missing w old_df missing g) =
    EvExamples ::
    map (removed_job_line (columns old_df))
      (boolean_index (rows old_df)
         (map (cell_isin (elements missing)) series)).
Proof.
  intros Hcol Hne Hsize. unfold report_missing, id_column_name in *.
  rewrite !bool_decide_true by done. simpl.
  rewrite take_ge by (by rewrite length_list_of_set).
  destruct (has_column "usajobs_control_number" old_df);
    unfold column, mbind, Py_bind; simpl; rewrite Hcol; simpl;
    by rewrite for_in_print, (map_ext _ _ (cell_isin_list_of_set w missing)).
Qed.

(** More than ten: the number of them and the five that the interpreter
    lists first, nothing else. *)
Lemma report_missing_large w old_df missing g :
  (10 < size missing)%nat →
  report_missing w old_df missing g =
    {| value := Ok (); store := g;
       printed := [EvTooMany (size missing);
                   EvFirstFive (take 5 (list_of_set w missing))] |}.
Proof.
  intros Hsize.
  assert (missing ≠ ∅) as Hne.
  { intros ->. rewrite size_empty in Hsize. lia. }
  unfold report_missing.
  rewrite (bool_decide_true (missing ≠ ∅)) by done.
  by rewrite (bool_decide_false (size missing ≤ 10)%nat) by lia.
Qed.

(** The five listed first are five different members of the set. *)
Lemma first_five_of_many w (missing : gset string) :
  (10 < size missing)%nat →
  length (take 5 (list_of_set w missing)) = 5%nat ∧
  NoDup (take 5 (list_of_set w missing)) ∧
  (∀ id, id ∈ take 5 (list_of_set w missing) → id ∈ missing).
Proof.
  intros Hsize. split; [|split].
  - rewrite length_take, length_list_of_set. lia.
  - eapply sublist_NoDup; [apply NoDup_list_of_set|apply sublist_take].
  - intros id Hin. apply (elem_of_list_of_set w).
    by eapply subseteq_take.
Qed.

(** With string identifiers every removed one is resolved: some row of
    the historical table carries it and that row is printed. *)
Lemma report_missing_resolves w old_df missing series g id :
  getitem old_df (id_column_name old_df) = Some series →
  (∀ c, c ∈ series → c = NA ∨ ∃ s, c = VStr s) →
  missing ≠ ∅ → (size missing ≤ 10)%nat →
  id ∈ missing → id ∈ id_set series →
  ∃ job,
    job ∈ rows old_df ∧
    row_get (columns old_df) job (id_column_name old_df) NA = VStr id ∧
    removed_job_line (columns old_df) job
      ∈ printed (report_missing w old_df missing g).
Proof.
  intros Hcol Hstr Hne Hsize Hid Hold.
  rewrite (report_missing_small _ _ _ _ _ Hcol Hne Hsize).
  apply getitem_rows in Hcol as (i & Hi & ->).
  apply elem_of_id_set in Hold as (c & Hc & Hna & Hs).
  destruct (Hstr c Hc) as [->|[s ->]]; [done|]. simpl in Hs. subst s.
  apply list_elem_of_fmap in Hc as (job & Hcell & Hjob).
  exists job. split; [done|].
  split; [unfold row_get; by rewrite Hi|].
  right. rewrite map_map, boolean_index_map.
  apply list_elem_of_fmap. exists job. split; [done|].
  apply list_elem_of_In, filter_In. split; [by apply list_elem_of_In|].
  rewrite <- Hcell. simpl. apply bool_decide_eq_true.
  by apply elem_of_elements.
Qed.

(** C5 fails on integer control numbers. [HEAD] holds postings 1, 2, 3
    and the current file 1, 2: one removed identifier is counted and the
    examples are announced, but no row is printed for it, because the
    identifiers were turned into strings and the column holds integers. *)
Theorem integer_ids_are_not_resolved :
  printed (diagnose_shrinkage Samples.integer_ids "a.parquet" 3
             Samples.three_and_one) =
    [EvDiagnosing "a.parquet"; EvInitialJobs 3; EvCurrentJobs 2;
     EvJobsLost 1; EvRemoved 1; EvAdded 0; EvExamples].
Proof. by vm_compute. Qed.

(** The same loss with string control numbers: the removed posting is
    printed with its title, agency and opening date. *)
Example string_ids_are_resolved :
  printed (diagnose_shrinkage Samples.one_lost_one_grown "a.parquet" 3
             Samples.three_and_one) =
    [EvDiagnosing "a.parquet"; EvInitialJobs 3; EvCurrentJobs 2;
     EvJobsLost 1; EvRemoved 1; EvAdded 0; EvExamples;
     EvRemovedJob (VStr "3") (VStr "Clerk") (VStr "Agency")
       (VStr "2025-01-01")].
Proof. by vm_compute. Qed.

(** ** The comparison of the identifier sets *)

Ltac run_diagnose_body :=
  unfold diagnose_body, pd_read_parquet, subprocess_git_show, pd_read_temp,
    or_raise, delta_line, mbind, Py_bind;
  repeat
    (progress
       (repeat match goal with
        | H : read_parquet _ _ = _ |- _ => rewrite H
        | H : git_show _ _ = _ |- _ => rewrite H
        | H : parquet_of_bytes _ _ = _ |- _ => rewrite H
        end;
        cbn [value store printed mret Py_ret print raise app])).

(** With its identifier column in the historical table the report
    returns. *)
Lemma report_missing_returns w old_df missing series g :
  getitem old_df (id_column_name old_df) = Some series →
  value (report_missing w old_df missing g) = Ok ().
Proof.
  intros Hcol. unfold report_missing, id_column_name in *.
  repeat case_bool_decide; simpl; try done.
  destruct (has_column "usajobs_control_number" old_df);
    unfold column, mbind, Py_bind; simpl; rewrite Hcol; simpl;
    by rewrite for_in_print.
Qed.

(** The two frames have the identifier column: the sets are those of
    the two columns. *)
Lemma control_numbers_run old_df current_df old_series current_series g :
  getitem old_df (id_column_name old_df) = Some old_series →
  getitem current_df (id_column_name old_df) = Some current_series →
  control_numbers old_df current_df g =
    {| value := Ok (Some (id_set old_series, id_set current_series));
       store := g; printed := [] |}.
Proof.
  intros Hocol Hccol. unfold control_numbers, id_column_name, column in *.
  pose proof (has_column_getitem "usajobsControlNumber" old_df) as H2.
  destruct (has_column "usajobs_control_number" old_df).
  - unfold mbind, Py_bind. by rewrite Hocol, Hccol.
  - destruct (has_column "usajobsControlNumber" old_df); [|congruence].
    unfold mbind, Py_bind. by rewrite Hocol, Hccol.
Qed.

(** A diagnosis that reaches the comparison: the counts, the sizes of the
    two differences of the identifier sets, then the report on the
    removed ones. *)
Lemma diagnose_body_compares_run w file_path initial_count g
    current_df stdout old_df old_series current_series :
  read_parquet w file_path = Some current_df →
  git_show w file_path = Some (0, stdout) →
  stdout ≠ "" →
  parquet_of_bytes w stdout = Some old_df →
  getitem old_df (id_column_name old_df) = Some old_series →
  getitem current_df (id_column_name old_df) = Some current_series →
  diagnose_body w file_path initial_count g =
    {| value :=
         value (report_missing w old_df
                  (missing_ids (id_set old_series) (id_set current_series))
                  g);
       store := g;
       printed :=
         EvInitialJobs initial_count :: EvCurrentJobs (len current_df) ::
         delta_line initial_count (len current_df) ::
         EvRemoved (size (missing_ids (id_set old_series)
                            (id_set current_series))) ::
         EvAdded (size (new_ids (id_set old_series)
                          (id_set current_series))) ::
         printed (report_missing w old_df
                    (missing_ids (id_set old_series) (id_set current_series))
                    g) |}.
Proof.
  intros Hr Hgit Hbytes Hold Hocol Hccol.
  assert (∀ g',
    control_numbers old_df current_df g' =
      {| value := Ok (Some (id_set old_series, id_set current_series));
         store := g'; printed := [] |}) as Hids.
  { intros g'. unfold control_numbers, id_column_name, column in *.
    pose proof (has_column_getitem "usajobsControlNumber" old_df) as H2.
    destruct (has_column "usajobs_control_number" old_df).
    - unfold mbind, Py_bind. by rewrite Hocol, Hccol.
    - destruct (has_column "usajobsControlNumber" old_df); [|congruence].
      unfold mbind, Py_bind. by rewrite Hocol, Hccol. }
  pose proof (quiet_report_missing w old_df
                (missing_ids (id_set old_series) (id_set current_series)) g)
    as Hq.
  run_diagnose_body.
  rewrite (bool_decide_true (0 = 0)), (bool_decide_true (stdout ≠ ""))
    by done.
  repeat case_bool_decide;
    cbn [value store printed mret Py_ret print app andb];
    rewrite !Hids; cbn [value store printed mret Py_ret print app];
    by rewrite Hq.
Qed.

(** C4. In a diagnosis that retrieves the historical table and finds the
    identifier column in both tables, the two identifier sets are those
    of the values, read as strings, that are not missing in the two
    columns, and what the diagnosis reports comes from their two
    differences: the number of removed identifiers is that of the
    historical ones that the current table lacks, the number of added
    ones that of the current ones that the historical table lacks, and
    the report on the removed ones is made from the former. No
    identifier is both removed and added. *)
Theorem removed_and_added_ids w file_path initial_count g
    current_df stdout old_df old_series current_series :
  read_parquet w file_path = Some current_df →
  git_show w file_path = Some (0, stdout) →
  stdout ≠ "" →
  parquet_of_bytes w stdout = Some old_df →
  getitem old_df (id_column_name old_df) = Some old_series →
  getitem current_df (id_column_name old_df) = Some current_series →
  ∃ historical current removed added : gset string,
    value (control_numbers old_df current_df g) =
      Ok (Some (historical, current)) ∧
    (∀ id, id ∈ historical ↔
           (∃ c, c ∈ old_series ∧ c ≠ NA ∧ str_of_cell c = id)) ∧
    (∀ id, id ∈ current ↔
           (∃ c, c ∈ current_series ∧ c ≠ NA ∧ str_of_cell c = id)) ∧
    printed (diagnose_shrinkage w file_path initial_count g) =
      EvDiagnosing file_path :: EvInitialJobs initial_count ::
      EvCurrentJobs (len current_df) ::
      delta_line initial_count (len current_df) ::
      EvRemoved (size removed) :: EvAdded (size added) ::
      printed (report_missing w old_df removed g) ∧
    removed = historical ∖ current ∧
    added = current ∖ historical ∧
    removed ## added.
Proof.
  intros Hr Hgit Hbytes Hold Hocol Hccol.
  exists (id_set old_series), (id_set current_series),
    (missing_ids (id_set old_series) (id_set current_series)),
    (new_ids (id_set old_series) (id_set current_series)).
  split; [by rewrite (control_numbers_run _ _ _ _ _ Hocol Hccol)|].
  do 2 (split; [intros id; apply elem_of_id_set|]).
  split; [|split; [done|split; [done|]]].
  - rewrite diagnose_shrinkage_run. cbn [printed].
    rewrite (diagnose_body_compares_run _ _ _ _ _ _ _ _ _
               Hr Hgit Hbytes Hold Hocol Hccol).
    cbn [printed value app].
    rewrite (report_missing_returns _ _ _ _ _ Hocol).
    by rewrite app_nil_r.
  - apply missing_ids_new_ids_disjoint.
Qed.

Lemma removed_and_added_ids_witness :
  ∃ historical current removed added : gset string,
    value (control_numbers (Samples.postings [VStr "1"; VStr "2"; VStr "3"])
             (Samples.postings [VStr "1"; VStr "2"]) fresh_globals) =
      Ok (Some (historical, current)) ∧
    (∀ id, id ∈ historical ↔
           (∃ c, c ∈ [VStr "1"; VStr "2"; VStr "3"] ∧ c ≠ NA ∧
                 str_of_cell c = id)) ∧
    (∀ id, id ∈ current ↔
           (∃ c, c ∈ [VStr "1"; VStr "2"] ∧ c ≠ NA ∧ str_of_cell c = id)) ∧
    printed (diagnose_shrinkage Samples.one_lost_one_grown "a.parquet" 3
               fresh_globals) =
      EvDiagnosing "a.parquet" :: EvInitialJobs 3 ::
      EvCurrentJobs (len (Samples.postings [VStr "1"; VStr "2"])) ::
      delta_line 3 (len (Samples.postings [VStr "1"; VStr "2"])) ::
      EvRemoved (size removed) :: EvAdded (size added) ::
      printed (report_missing Samples.one_lost_one_grown
                 (Samples.postings [VStr "1"; VStr "2"; VStr "3"])
                 removed fresh_globals) ∧
    removed = historical ∖ current ∧
    added = current ∖ historical ∧
    removed ## added.
Proof.
  refine (removed_and_added_ids Samples.one_lost_one_grown "a.parquet" 3
            fresh_globals (Samples.postings [VStr "1"; VStr "2"])
            "a.parquet" (Samples.postings [VStr "1"; VStr "2"; VStr "3"])
            [VStr "1"; VStr "2"; VStr "3"] [VStr "1"; VStr "2"]
            _ _ _ _ _ _).
  - reflexivity.
  - reflexivity.
  - discriminate.
  - reflexivity.
  - reflexivity.
  - reflexivity.
Defined.

(** ** The snapshots, further *)

Lemma size_snapshot_loop w files (sizes : gmap string Z) g :
  ∃ out,
    for_in files (λ file (initial_sizes : gmap string Z),
      try_except
        (initial_size ← os_getsize w file;
         print (EvInitialSize file initial_size);;
         mret (<[file := initial_size]> initial_sizes))
        (λ e,
         print (EvCouldNotRead file e);;
         mret (<[file := 0]> initial_sizes))) sizes g =
    {| value := Ok (foldl (λ m file, <[file := snapshot_size w file]> m)
                      sizes files);
       store := g; printed := out |}.
Proof.
  set (body := λ (file : string) (initial_sizes : gmap string Z),
                 try_except _ _).
  assert (∀ file sizes g, ∃ out,
            body file sizes g =
              {| value := Ok (<[file := snapshot_size w file]> sizes);
                 store := g; printed := out |}) as Hstep.
  { intros file sizes' g'.
    unfold body, try_except, os_getsize, or_raise, snapshot_size,
      mbind, Py_bind.
    destruct (getsize w file); simpl; by eexists. }
  clearbody body. revert sizes g.
  induction files as [|file files IH]; intros sizes g; simpl.
  - by eexists.
  - destruct (Hstep file sizes g) as [out Hout].
    erewrite bind_Ok by (rewrite Hout; reflexivity). rewrite Hout. simpl.
    destruct (IH (<[file := snapshot_size w file]> sizes) g) as [out' ->].
    by eexists.
Qed.

Lemma lookup_foldl_insert (f : string → Z) files (m : gmap string Z) file :
  foldl (λ m file, <[file := f file]> m) m files !! file =
    if decide (file ∈ files) then Some (f file) else m !! file.
Proof.
  revert m. induction files as [|x files IH]; intros m; simpl; [done|].
  rewrite IH. destruct (decide (file ∈ files)) as [Hin|Hnin].
  - rewrite decide_True by (by right). done.
  - destruct (decide (x = file)) as [->|Hne].
    + rewrite decide_True by left. apply lookup_insert_eq.
    + rewrite decide_False by (by intros [?|?]%elem_of_cons).
      by apply lookup_insert_ne.
Qed.

(** X1. [record_initial_file_sizes] always returns and leaves the globals
    alone; its dictionary holds, for every path of the glob, the size of
    the file, or 0 when the size cannot be read, and holds no other
    path. *)
Theorem size_snapshot_covers_the_glob w g :
  ∃ initial_sizes,
    value (record_initial_file_sizes w g) = Ok initial_sizes ∧
    store (record_initial_file_sizes w g) = g ∧
    ∀ file,
      initial_sizes !! file =
        if decide (file ∈ data_files w)
        then Some (default 0 (getsize w file)) else None.
Proof.
  unfold record_initial_file_sizes.
  destruct (size_snapshot_loop w (data_files w) ∅ g) as [out Hout].
  erewrite bind_Ok by reflexivity. cbn [value store printed print].
  rewrite Hout. cbn [value store printed].
  eexists. split; [done|]. split; [done|].
  intros file. by rewrite lookup_foldl_insert, lookup_empty.
Qed.

(** X2. [record_initial_job_counts] never forgets: a path that the glob
    does not match keeps the count that the global dictionary held for it
    before, and a path that it matches gets its count whatever was
    there. *)
Theorem count_snapshot_keeps_other_paths w g file :
  initial_counts (store (record_initial_job_counts w g)) !! file =
    if decide (file ∈ data_files w)
    then Some (match read_parquet w file with
               | Some df => len df
               | None => 0
               end)
    else initial_counts g !! file.
Proof.
  rewrite record_initial_job_counts_run. simpl.
  by rewrite (lookup_foldl_insert (snapshot_count w)).
Qed.

(** ** What the check depends on *)

Section oblivious_closure.
Context {A B : Type}.

Lemma oblivious_ret (a : A) : oblivious (mret a).
Proof. done. Qed.

Lemma oblivious_raise (e : exn) : oblivious (raise (A:=A) e).
Proof. done. Qed.

Lemma oblivious_or_raise e (r : option A) : oblivious (or_raise e r).
Proof. by destruct r. Qed.

Lemma oblivious_bind (m : Py A) (k : A → Py B) :
  oblivious m → (∀ a, oblivious (k a)) → oblivious (m ≫= k).
Proof.
  intros Hm Hk g g'. unfold mbind, Py_bind.
  destruct (Hm g g') as [Hv Hp]. rewrite Hv, Hp.
  destruct (value (m g')) as [a|e]; simpl; [|done].
  destruct (Hk a (store (m g)) (store (m g'))) as [-> ->]. done.
Qed.

Lemma oblivious_try_except (body : Py A) handler :
  oblivious body → (∀ e, oblivious (handler e)) →
  oblivious (try_except body handler).
Proof.
  intros Hb Hh g g'. unfold try_except.
  destruct (Hb g g') as [Hv Hp]. rewrite Hv.
  destruct (value (body g')) as [a|e] eqn:Hv'; simpl; [by rewrite Hv|].
  rewrite Hp.
  destruct (Hh e (store (body g)) (store (body g'))) as [-> ->]. done.
Qed.

End oblivious_closure.

Section oblivious_loops.
Context {A B : Type}.

Lemma oblivious_for_in (xs : list B) (body : B → A → Py A) l :
  (∀ x l', oblivious (body x l')) → oblivious (for_in xs body l).
Proof.
  intros Hb. revert l.
  induction xs as [|x xs IH]; intros l; simpl; [done|].
  apply oblivious_bind; [apply Hb | intros l'; apply IH].
Qed.
End oblivious_loops.

Lemma oblivious_print ev : oblivious (print ev).
Proof. done. Qed.

Ltac step_oblivious :=
  first
    [ apply oblivious_ret | apply oblivious_print | apply oblivious_raise
    | apply oblivious_or_raise
    | apply oblivious_bind; [|intros ?]
    | apply oblivious_try_except; [|intros ?]
    | apply oblivious_for_in; intros ? ?
    | case_match ].

(** The diagnosis reads the files and [git], never the globals. *)
Lemma oblivious_diagnose_shrinkage w file_path initial_count :
  oblivious (diagnose_shrinkage w file_path initial_count).
Proof.
  unfold diagnose_shrinkage, diagnose_body, report_missing, control_numbers,
    column, pd_read_parquet, subprocess_git_show, pd_read_temp.
  repeat step_oblivious.
Qed.

Lemma forallb_agree {A} (p q : A → bool) (xs : list A) :
  (∀ x, x ∈ xs → p x = q x) → forallb p xs = forallb q xs.
Proof.
  induction xs as [|x xs IH]; intros Hpq; simpl; [done|].
  rewrite Hpq by left. rewrite IH; [done|].
  intros y Hy. apply Hpq. by right.
Qed.

Lemma existsb_agree {A} (p q : A → bool) (xs : list A) :
  (∀ x, x ∈ xs → p x = q x) → existsb p xs = existsb q xs.
Proof.
  induction xs as [|x xs IH]; intros Hpq; simpl; [done|].
  rewrite Hpq by left. rewrite IH; [done|].
  intros y Hy. apply Hpq. by right.
Qed.

Lemma filter_agree {A} (p q : A → bool) (xs : list A) :
  (∀ x, x ∈ xs → p x = q x) → List.filter p xs = List.filter q xs.
Proof.
  induction xs as [|x xs IH]; intros Hpq; simpl; [done|].
  rewrite Hpq by left. rewrite IH; [done|].
  intros y Hy. apply Hpq. by right.
Qed.

Lemma map_agree {A B} (f h : A → B) (xs : list A) :
  (∀ x, x ∈ xs → f x = h x) → map f xs = map h xs.
Proof.
  induction xs as [|x xs IH]; intros Hfh; simpl; [done|].
  rewrite Hfh by left. rewrite IH; [done|].
  intros y Hy. apply Hfh. by right.
Qed.

(** X3. The check looks only at the files that the glob matches when it
    runs: two snapshots that agree on those files give the same verdict
    and the same output, so the count recorded for a file that has since
    disappeared changes nothing. *)
Theorem check_ignores_paths_outside_the_glob w initial_sizes g g' :
  (∀ file, file ∈ data_files w → initial_of g file = initial_of g' file) →
  value (check_file_sizes_vs_initial w initial_sizes g) =
    value (check_file_sizes_vs_initial w initial_sizes g') ∧
  printed (check_file_sizes_vs_initial w initial_sizes g) =
    printed (check_file_sizes_vs_initial w initial_sizes g').
Proof.
  intros Hagree. rewrite !check_run. simpl.
  assert (∀ file, file ∈ data_files w → passes w g file = passes w g' file)
    as Hpasses by (intros f Hf; unfold passes; by rewrite (Hagree f Hf)).
  assert (∀ file, file ∈ data_files w → grew w g file = grew w g' file)
    as Hgrew by (intros f Hf; unfold grew; by rewrite (Hagree f Hf)).
  assert (∀ file, file ∈ data_files w → lost w g file = lost w g' file)
    as Hlost by (intros f Hf; unfold lost; by rewrite (Hagree f Hf)).
  rewrite (forallb_agree _ _ _ Hpasses), (existsb_agree _ _ _ Hgrew),
    (filter_agree _ _ _ Hlost).
  split; [done|]. do 2 f_equal.
  - apply map_agree. intros f Hf. unfold check_line. by rewrite (Hagree f Hf).
  - f_equal. unfold diagnostics. case_bool_decide; [|done]. do 2 f_equal.
    apply map_agree. intros f Hf.
    apply list_elem_of_In, filter_In in Hf as [Hf _].
    apply list_elem_of_In in Hf.
    unfold diagnosis_of. rewrite (Hagree f Hf).
    apply oblivious_diagnose_shrinkage.
Qed.

Lemma check_ignores_paths_outside_the_glob_witness :
  value (check_file_sizes_vs_initial Samples.only_grown ∅
           Samples.three_and_one) =
    value (check_file_sizes_vs_initial Samples.only_grown ∅
             (Samples.counts_of [("b.parquet", 1)])).
Proof.
  refine (proj1 (check_ignores_paths_outside_the_glob Samples.only_grown ∅
                   Samples.three_and_one
                   (Samples.counts_of [("b.parquet", 1)]) _)).
  intros file Hin. apply list_elem_of_In in Hin. simpl in Hin.
  destruct Hin as [<-|[]]. vm_compute. reflexivity.
Defined.

(** X4. File sizes play no part in the verdict: neither the snapshot of
    the sizes nor the sizes read at check time, only whether each size
    could be read. *)
Theorem verdict_ignores_file_sizes w w' initial_sizes initial_sizes' g :
  data_files w = data_files w' →
  (∀ file, file ∈ data_files w →
     read_parquet w file = read_parquet w' file ∧
     (is_Some (getsize w file) ↔ is_Some (getsize w' file))) →
  value (check_file_sizes_vs_initial w initial_sizes g) =
    value (check_file_sizes_vs_initial w' initial_sizes' g).
Proof.
  intros Hfiles Hsame. rewrite !check_run. simpl. rewrite <- Hfiles.
  assert (∀ file, file ∈ data_files w →
            passes w g file = passes w' g file ∧
            grew w g file = grew w' g file) as Hagree.
  { intros file Hin. destruct (Hsame file Hin) as [Hr [Hs Hs']].
    unfold passes, grew, observe. rewrite <- Hr.
    destruct (getsize w file) as [sz|], (getsize w' file) as [sz'|];
      try done.
    - by destruct (read_parquet w file).
    - by destruct Hs as [? [=]].
    - by destruct Hs' as [? [=]]. }
  rewrite (forallb_agree (passes w g) (passes w' g)) by (by intros; apply Hagree).
  by rewrite (existsb_agree (grew w g) (grew w' g)) by (by intros; apply Hagree).
Qed.

Lemma verdict_ignores_file_sizes_witness :
  value (check_file_sizes_vs_initial Samples.one_lost_one_grown ∅
           Samples.three_and_one) =
    value (check_file_sizes_vs_initial
             {| data_files := data_files Samples.one_lost_one_grown;
                getsize := λ file,
                  Z.mul 2 <$> getsize Samples.one_lost_one_grown file;
                read_parquet := read_parquet Samples.one_lost_one_grown;
                git_show := git_show Samples.one_lost_one_grown;
                parquet_of_bytes :=
                  parquet_of_bytes Samples.one_lost_one_grown;
                list_of_set := list_of_set Samples.one_lost_one_grown;
                list_of_set_members :=
                  list_of_set_members Samples.one_lost_one_grown |}
             {["a.parquet" := 1; "b.parquet" := 99999]}
             Samples.three_and_one).
Proof.
  apply verdict_ignores_file_sizes.
  - reflexivity.
  - intros file _. split; [reflexivity|]. simpl.
    by rewrite fmap_is_Some.
Defined.

(** X5. A tracked file whose size cannot be read fails the check with a
    "could not check" line for an [OSError], even when its table could be
    read; it is neither reported as having lost jobs nor diagnosed. *)
Theorem unreadable_size_fails_the_check w initial_sizes g file :
  file ∈ data_files w →
  getsize w file = None →
  value (check_file_sizes_vs_initial w initial_sizes g) = Ok (false, false) ∧
  EvCouldNotCheck file (OSError file)
    ∈ printed (check_file_sizes_vs_initial w initial_sizes g) ∧
  (∀ a b c d,
     EvLostJobs file a b c d
       ∉ printed (check_file_sizes_vs_initial w initial_sizes g)) ∧
  EvDiagnosing file ∉ printed (check_file_sizes_vs_initial w initial_sizes g).
Proof.
  intros Hin Hs.
  assert (observe w file = inl (OSError file)) as Ho
    by (unfold observe; by rewrite Hs).
  split; [|split].
  - rewrite check_run. simpl.
    assert (forallb (passes w g) (data_files w) = false) as ->; [|done].
    apply not_true_is_false. intros Hall.
    rewrite forallb_forall in Hall.
    specialize (Hall file (proj1 (list_elem_of_In _ _) Hin)).
    unfold passes in Hall. by rewrite Ho in Hall.
  - pose proof (check_prints_line w initial_sizes g file Hin) as Hl.
    unfold check_line in Hl. by rewrite Ho in Hl.
  - apply not_lost_not_reported. unfold lost. by rewrite Ho.
Qed.

Lemma unreadable_size_fails_the_check_witness :
  value (check_file_sizes_vs_initial
           {| data_files := ["gone.parquet"];
              getsize := λ _, None;
              read_parquet := λ _, Some (Samples.postings [VStr "1"]);
              git_show := λ _, None;
              parquet_of_bytes := λ _, None;
              list_of_set := elements;
              list_of_set_members := λ _, reflexivity _ |} ∅ fresh_globals)
    = Ok (false, false).
Proof.
  refine (proj1 (unreadable_size_fails_the_check _ ∅ fresh_globals
                   "gone.parquet" _ _)).
  - left.
  - reflexivity.
Defined.

Lemma check_line_not_critical w initial_sizes g file :
  check_line w initial_sizes g file ≠ EvCritical.
Proof.
  unfold check_line. destruct (observe w file) as [e|[sz n]]; [done|].
  by repeat case_bool_decide.
Qed.

(** X6. The banner that refuses to commit is printed exactly when the
    verdict is ok = false. *)
Theorem banner_iff_failed w initial_sizes g :
  EvCritical ∈ printed (check_file_sizes_vs_initial w initial_sizes g) ↔
  value (check_file_sizes_vs_initial w initial_sizes g) = Ok (false, false).
Proof.
  rewrite check_run. simpl.
  destruct (forallb (passes w g) (data_files w)); split; try done.
  - rewrite app_nil_r, elem_of_cons, elem_of_app.
    intros [?|[Hin|Hin]]; [done| |].
    + apply list_elem_of_fmap in Hin as (file & Heq & _).
      symmetry in Heq. by apply check_line_not_critical in Heq.
    + apply diagnostics_events in Hin as [?|(file & _ & [?|Hd])]; done.
  - intros _. right. rewrite !elem_of_app. right. right. left.
Qed.

(** X7. A file is diagnosed exactly when the check reported it as having
    lost jobs. *)
Theorem diagnosed_iff_reported_lost w initial_sizes g file :
  EvDiagnosing file ∈ printed (check_file_sizes_vs_initial w initial_sizes g) ↔
  ∃ initial_count current_count initial_size current_size,
    EvLostJobs file initial_count current_count initial_size current_size
      ∈ printed (check_file_sizes_vs_initial w initial_sizes g).
Proof.
  split.
  - intros [?|[(f & Hf & Heq)|[?|[(f & Hf & Hlost & [Heq|Hd])|?]]]]
      %check_printed_cases; try done.
    + symmetry in Heq.
      by destruct (check_line_not_diagnosis w initial_sizes g f) as [_ Hne];
        apply Hne in Heq.
    + inversion Heq; subst f.
      pose proof (check_prints_line w initial_sizes g file Hf) as Hline.
      unfold check_line, lost in *.
      destruct (observe w file) as [e|[sz n]]; [done|].
      rewrite Hlost in Hline. eauto.
  - intros (a & b & c & d
            & [?|[(f & Hf & Heq)|[?|[(f & Hf & Hlost & [Heq|Hd])|?]]]]
                %check_printed_cases); try done.
    symmetry in Heq. apply check_line_lost in Heq as [-> Hlost].
    by apply check_diagnoses_lost.
Qed.

(** X8. A file that the snapshot does not know (one created by the
    collector) is checked against 0: it is never reported as having lost
    jobs, and with at least one row it is reported as grown from 0. *)
Theorem new_file_counts_from_zero w initial_sizes g file
    current_size current_df :
  initial_counts g !! file = None →
  file ∈ data_files w →
  getsize w file = Some current_size →
  read_parquet w file = Some current_df →
  (∀ a b c d,
     EvLostJobs file a b c d
       ∉ printed (check_file_sizes_vs_initial w initial_sizes g)) ∧
  (len current_df ≠ 0 →
   EvGrew file 0 (len current_df) (default 0 (initial_sizes !! file))
     current_size
     ∈ printed (check_file_sizes_vs_initial w initial_sizes g)).
Proof.
  intros Hnew Hin Hs Hr.
  assert (initial_of g file = 0) as Hinit
    by (unfold initial_of; by rewrite Hnew).
  split.
  - apply not_lost_not_reported. unfold lost.
    rewrite (observe_counted _ _ _ _ Hs Hr), Hinit.
    apply bool_decide_eq_false. unfold len. lia.
  - intros Hne.
    pose proof (check_prints_line w initial_sizes g file Hin) as Hline.
    unfold check_line in Hline.
    rewrite (observe_counted _ _ _ _ Hs Hr), Hinit in Hline.
    rewrite bool_decide_false in Hline by (unfold len; lia).
    rewrite bool_decide_true in Hline by (unfold len in *; lia).
    done.
Qed.

Lemma new_file_counts_from_zero_witness :
  EvGrew "b.parquet" 0 3 0 4096
    ∈ printed (check_file_sizes_vs_initial Samples.only_grown ∅
                 fresh_globals).
Proof.
  refine (proj2 (new_file_counts_from_zero Samples.only_grown ∅ fresh_globals
                   "b.parquet" 4096
                   (Samples.postings [VStr "5"; VStr "6"; VStr "7"])
                   _ _ _ _) _).
  - reflexivity.
  - left.
  - reflexivity.
  - reflexivity.
  - vm_compute. discriminate.
Defined.

(** ** The diagnosis, case by case *)

(** X9. When the file cannot be read any more at diagnosis time, the
    diagnosis prints its heading and the error, nothing else. *)
Theorem diagnosis_of_unreadable_file w file_path initial_count g :
  read_parquet w file_path = None →
  diagnose_shrinkage w file_path initial_count g =
    {| value := Ok (); store := g;
       printed := [EvDiagnosing file_path;
                   EvDiagnosisError (ParquetError file_path)] |}.
Proof.
  intros Hr. rewrite diagnose_shrinkage_run.
  assert (diagnose_body w file_path initial_count g =
            {| value := Raise (ParquetError file_path); store := g;
               printed := [] |}) as ->; [|done].
  by run_diagnose_body.
Qed.

Lemma diagnosis_of_unreadable_file_witness :
  diagnose_shrinkage Samples.one_unreadable_one_grown "a.parquet" 3
    fresh_globals =
    {| value := Ok (); store := fresh_globals;
       printed := [EvDiagnosing "a.parquet";
                   EvDiagnosisError (ParquetError "a.parquet")] |}.
Proof.
  apply (diagnosis_of_unreadable_file Samples.one_unreadable_one_grown).
  reflexivity.
Defined.

(** X10. When [git show] fails or prints nothing, the diagnosis states
    the counts and their difference, says that the previous version could
    not be loaded, and compares no identifiers; that is no error. *)
Theorem diagnosis_without_history w file_path initial_count g
    current_df returncode stdout :
  read_parquet w file_path = Some current_df →
  git_show w file_path = Some (returncode, stdout) →
  returncode ≠ 0 ∨ stdout = "" →
  printed (diagnose_shrinkage w file_path initial_count g) =
    [EvDiagnosing file_path; EvInitialJobs initial_count;
     EvCurrentJobs (len current_df);
     delta_line initial_count (len current_df); EvNoPrevious].
Proof.
  intros Hr Hgit Hfail. rewrite diagnose_shrinkage_run.
  assert (diagnose_body w file_path initial_count g =
            {| value := Ok (); store := g;
               printed := [EvInitialJobs initial_count;
                           EvCurrentJobs (len current_df);
                           delta_line initial_count (len current_df);
                           EvNoPrevious] |}) as ->; [|done].
  run_diagnose_body.
  assert (bool_decide (returncode = 0) && bool_decide (stdout ≠ "") = false)
    as ->.
  { destruct Hfail as [Hrc| ->].
    - by rewrite (bool_decide_false (returncode = 0)).
    - rewrite (bool_decide_false ("" ≠ "")) by (by intros []).
      apply andb_false_r. }
  by repeat case_bool_decide.
Qed.

Lemma diagnosis_without_history_witness :
  printed (diagnose_shrinkage Samples.one_lost_one_grown "b.parquet" 5
             fresh_globals) =
    [EvDiagnosing "b.parquet"; EvInitialJobs 5; EvCurrentJobs 3;
     EvJobsLost 2; EvNoPrevious].
Proof.
  refine (diagnosis_without_history Samples.one_lost_one_grown "b.parquet" 5
            fresh_globals (Samples.postings [VStr "5"; VStr "6"; VStr "7"])
            128 "" _ _ _).
  - reflexivity.
  - reflexivity.
  - left. discriminate.
Defined.

(** X11. When the historical table has neither control-number column,
    the diagnosis says so after the counts and stops: no identifiers are
    compared, whatever the current table holds. *)
Theorem diagnosis_without_id_column w file_path initial_count g
    current_df stdout old_df :
  read_parquet w file_path = Some current_df →
  git_show w file_path = Some (0, stdout) →
  stdout ≠ "" →
  parquet_of_bytes w stdout = Some old_df →
  "usajobs_control_number" ∉ columns old_df →
  "usajobsControlNumber" ∉ columns old_df →
  printed (diagnose_shrinkage w file_path initial_count g) =
    [EvDiagnosing file_path; EvInitialJobs initial_count;
     EvCurrentJobs (len current_df);
     delta_line initial_count (len current_df); EvNoControlNumber].
Proof.
  intros Hr Hgit Hout Hold Hno1 Hno2. rewrite diagnose_shrinkage_run.
  assert (diagnose_body w file_path initial_count g =
            {| value := Ok (); store := g;
               printed := [EvInitialJobs initial_count;
                           EvCurrentJobs (len current_df);
                           delta_line initial_count (len current_df);
                           EvNoControlNumber] |}) as ->; [|done].
  run_diagnose_body.
  rewrite (bool_decide_true (0 = 0)), (bool_decide_true (stdout ≠ ""))
    by done.
  unfold control_numbers, has_column.
  rewrite (bool_decide_false ("usajobs_control_number" ∈ columns old_df)),
    (bool_decide_false ("usajobsControlNumber" ∈ columns old_df)) by done.
  by repeat case_bool_decide.
Qed.

Lemma diagnosis_without_id_column_witness :
  printed (diagnose_shrinkage
             (Samples.world_of
                [("a.parquet", Some {| columns := ["positionTitle"];
                                       rows := [[VStr "Clerk"]] |})]
                [("a.parquet", Some {| columns := ["positionTitle"];
                                       rows := [[VStr "Clerk"];
                                                [VStr "Nurse"]] |})])
             "a.parquet" 2 fresh_globals) =
    [EvDiagnosing "a.parquet"; EvInitialJobs 2; EvCurrentJobs 1;
     EvJobsLost 1; EvNoControlNumber].
Proof.
  refine (diagnosis_without_id_column _ "a.parquet" 2 fresh_globals
            {| columns := ["positionTitle"]; rows := [[VStr "Clerk"]] |}
            "a.parquet"
            {| columns := ["positionTitle"];
               rows := [[VStr "Clerk"]; [VStr "Nurse"]] |} _ _ _ _ _ _).
  - reflexivity.
  - reflexivity.
  - discriminate.
  - reflexivity.
  - by intros [[=]|[]%elem_of_nil]%elem_of_cons.
  - by intros [[=]|[]%elem_of_nil]%elem_of_cons.
Defined.

(** X12. The column is chosen by the historical table alone: when the
    current table lacks that column (even if it has the other one), the
    lookup raises and the diagnosis ends with the error for the missing
    key, without comparing identifiers. *)
Theorem diagnosis_of_renamed_column w file_path initial_count g
    current_df stdout old_df :
  read_parquet w file_path = Some current_df →
  git_show w file_path = Some (0, stdout) →
  stdout ≠ "" →
  parquet_of_bytes w stdout = Some old_df →
  id_column_name old_df ∈ columns old_df →
  id_column_name old_df ∉ columns current_df →
  printed (diagnose_shrinkage w file_path initial_count g) =
    [EvDiagnosing file_path; EvInitialJobs initial_count;
     EvCurrentJobs (len current_df);
     delta_line initial_count (len current_df);
     EvDiagnosisError (KeyError (id_column_name old_df))].
Proof.
  intros Hr Hgit Hout Hold Hin Hnin. rewrite diagnose_shrinkage_run.
  assert (diagnose_body w file_path initial_count g =
            {| value := Raise (KeyError (id_column_name old_df)); store := g;
               printed := [EvInitialJobs initial_count;
                           EvCurrentJobs (len current_df);
                           delta_line initial_count (len current_df)] |})
    as ->; [|done].
  run_diagnose_body.
  rewrite (bool_decide_true (0 = 0)), (bool_decide_true (stdout ≠ ""))
    by done.
  assert (∀ g',
    control_numbers old_df current_df g' =
      {| value := Raise (KeyError (id_column_name old_df));
         store := g'; printed := [] |}) as Hids.
  { intros g'. unfold control_numbers, id_column_name, column in *.
    unfold has_column in *.
    destruct (col_index_Some _ _ Hin) as [i Hi].
    pose proof (col_index_None _ _ Hnin) as Hnone.
    unfold getitem, or_raise, mbind, Py_bind.
    case_bool_decide as H1.
    - rewrite Hi, Hnone. done.
    - rewrite (bool_decide_true _ Hin), Hi, Hnone. done. }
  repeat case_bool_decide;
    cbn [value store printed mret Py_ret print app andb];
    rewrite !Hids; done.
Qed.

Lemma diagnosis_of_renamed_column_witness :
  printed (diagnose_shrinkage
             (Samples.world_of
                [("a.parquet", Some {| columns := ["usajobsControlNumber"];
                                       rows := [[VStr "1"]] |})]
                [("a.parquet", Some (Samples.postings
                                       [VStr "1"; VStr "2"]))])
             "a.parquet" 2 fresh_globals) =
    [EvDiagnosing "a.parquet"; EvInitialJobs 2; EvCurrentJobs 1;
     EvJobsLost 1; EvDiagnosisError (KeyError "usajobs_control_number")].
Proof.
  refine (diagnosis_of_renamed_column _ "a.parquet" 2 fresh_globals
            {| columns := ["usajobsControlNumber"]; rows := [[VStr "1"]] |}
            "a.parquet" (Samples.postings [VStr "1"; VStr "2"]) _ _ _ _ _ _).
  - reflexivity.
  - reflexivity.
  - discriminate.
  - reflexivity.
  - left.
  - by intros [[=]|[]%elem_of_nil]%elem_of_cons.
Defined.

(** X13. Called on a file that lost jobs, the diagnosis opens with the
    counts of the check and the number of jobs lost. *)
Theorem diagnosis_restates_the_loss w file_path initial_count g current_df :
  read_parquet w file_path = Some current_df →
  len current_df < initial_count →
  ∃ rest,
    printed (diagnose_shrinkage w file_path initial_count g) =
      EvDiagnosing file_path :: EvInitialJobs initial_count ::
      EvCurrentJobs (len current_df) ::
      EvJobsLost (initial_count - len current_df) :: rest.
Proof.
  intros Hr Hlt. rewrite diagnose_shrinkage_run. simpl.
  assert (∃ rest,
    printed (diagnose_body w file_path initial_count g) =
      EvInitialJobs initial_count :: EvCurrentJobs (len current_df) ::
      EvJobsLost (initial_count - len current_df) :: rest) as [rest ->].
  { run_diagnose_body.
    rewrite (bool_decide_false (len current_df - initial_count > 0)) by lia.
    rewrite (bool_decide_true (len current_df - initial_count < 0)) by lia.
    cbn [value store printed mret Py_ret print app].
    replace (- (len current_df - initial_count))
      with (initial_count - len current_df) by lia.
    destruct (value _); by eexists. }
  by eexists.
Qed.

Lemma diagnosis_restates_the_loss_witness :
  ∃ rest,
    printed (diagnose_shrinkage Samples.one_lost_one_grown "a.parquet" 3
               fresh_globals) =
      EvDiagnosing "a.parquet" :: EvInitialJobs 3 :: EvCurrentJobs 2 ::
      EvJobsLost 1 :: rest.
Proof.
  refine (diagnosis_restates_the_loss Samples.one_lost_one_grown "a.parquet"
            3 fresh_globals (Samples.postings [VStr "1"; VStr "2"]) _ _).
  - reflexivity.
  - reflexivity.
Defined.

(** ** The report on removed postings, further *)

Lemma elem_of_boolean_index {A} (p : A → bool) (xs : list A) (x : A) :
  x ∈ boolean_index xs (map p xs) ↔ x ∈ xs ∧ p x = true.
Proof.
  rewrite boolean_index_map, !list_elem_of_In. apply filter_In.
Qed.

(** X14. Every posting line of the report is a row of the historical
    table whose control number is a string among the removed
    identifiers: the report never lists a posting that was not removed. *)
Theorem report_lists_only_removed w old_df missing g
    control_num title agency open_date :
  EvRemovedJob control_num title agency open_date
    ∈ printed (report_missing w old_df missing g) →
  ∃ job id,
    job ∈ rows old_df ∧
    id ∈ missing ∧
    row_get (columns old_df) job (id_column_name old_df) NA = VStr id ∧
    removed_job_line (columns old_df) job
      = EvRemovedJob control_num title agency open_date.
Proof.
  destruct (decide (missing ≠ ∅ ∧ (size missing ≤ 10)%nat)) as [[Hne Hsz]|Hno].
  - destruct (getitem old_df (id_column_name old_df)) as [series|] eqn:Hcol.
    + rewrite (report_missing_small _ _ _ _ _ Hcol Hne Hsz).
      apply getitem_rows in Hcol as (i & Hi & ->).
      rewrite map_map. intros [[=]|Hin]%elem_of_cons.
      apply list_elem_of_fmap in Hin as (job & Hline & Hjob).
      apply (elem_of_boolean_index
               (λ row, cell_isin (elements missing) (nth i row NA)))
        in Hjob as [Hjob Hisin].
      destruct (nth i job NA) as [|s|z] eqn:Hcell; try done.
      exists job, s. split; [done|]. split.
      { apply elem_of_elements. by apply bool_decide_eq_true in Hisin. }
      split; [unfold row_get; by rewrite Hi|done].
    + unfold report_missing, id_column_name, column in *.
      rewrite !bool_decide_true by done. simpl.
      destruct (has_column "usajobs_control_number" old_df);
        unfold mbind, Py_bind; simpl; rewrite Hcol; simpl;
        by intros [[=]|[]%elem_of_nil]%elem_of_cons.
  - unfold report_missing.
    destruct (decide (missing = ∅)) as [->|Hne].
    + rewrite !(bool_decide_false (∅ ≠ ∅)) by (by intros []).
      by intros []%elem_of_nil.
    + rewrite !(bool_decide_true (missing ≠ ∅)) by done.
      rewrite (bool_decide_false (size missing ≤ 10)%nat) by tauto.
      simpl.
      by intros [[=]|[[=]|[]%elem_of_nil]%elem_of_cons]%elem_of_cons.
Qed.

Lemma report_lists_only_removed_witness :
  ∃ job id,
    job ∈ rows (Samples.postings [VStr "1"; VStr "2"; VStr "3"]) ∧
    id ∈ ({["3"]} : gset string) ∧
    row_get (columns (Samples.postings [VStr "1"; VStr "2"; VStr "3"])) job
      (id_column_name (Samples.postings [VStr "1"; VStr "2"; VStr "3"])) NA
      = VStr id ∧
    removed_job_line
      (columns (Samples.postings [VStr "1"; VStr "2"; VStr "3"])) job
      = EvRemovedJob (VStr "3") (VStr "Clerk") (VStr "Agency")
          (VStr "2025-01-01").
Proof.
  apply (report_lists_only_removed Samples.one_lost_one_grown _ _
           fresh_globals).
  vm_compute. right. left.
Defined.

(** X15. With the control numbers of the historical table stored as
    strings, a diagnosis that finds up to ten removed identifiers
    resolves every one of them: some row of the historical table carries
    it, and the line of that row is printed. *)
Theorem string_ids_are_all_resolved w file_path initial_count g
    current_df stdout old_df old_series current_series id :
  read_parquet w file_path = Some current_df →
  git_show w file_path = Some (0, stdout) →
  stdout ≠ "" →
  parquet_of_bytes w stdout = Some old_df →
  getitem old_df (id_column_name old_df) = Some old_series →
  getitem current_df (id_column_name old_df) = Some current_series →
  (∀ c, c ∈ old_series → c = NA ∨ ∃ s, c = VStr s) →
  (size (missing_ids (id_set old_series) (id_set current_series)) ≤ 10)%nat →
  id ∈ missing_ids (id_set old_series) (id_set current_series) →
  ∃ job,
    job ∈ rows old_df ∧
    row_get (columns old_df) job (id_column_name old_df) NA = VStr id ∧
    removed_job_line (columns old_df) job
      ∈ printed (diagnose_shrinkage w file_path initial_count g).
Proof.
  intros Hr Hgit Hbytes Hold Hocol Hccol Hstr Hsize Hid.
  destruct (report_missing_resolves w old_df
              (missing_ids (id_set old_series) (id_set current_series))
              old_series g id) as (job & Hjob & Hcell & Hline);
    try done.
  { intros Hempty. rewrite Hempty in Hid. by apply not_elem_of_empty in Hid. }
  { unfold missing_ids in Hid. by apply elem_of_difference in Hid as [? _]. }
  exists job. split; [done|]. split; [done|].
  rewrite diagnose_shrinkage_run. cbn [printed].
  rewrite (diagnose_body_compares_run _ _ _ _ _ _ _ _ _
             Hr Hgit Hbytes Hold Hocol Hccol).
  cbn [printed]. right. apply elem_of_app. left.
  by do 5 right.
Qed.

Lemma string_ids_are_all_resolved_witness :
  ∃ job,
    job ∈ rows (Samples.postings [VStr "1"; VStr "2"; VStr "3"]) ∧
    row_get (columns (Samples.postings [VStr "1"; VStr "2"; VStr "3"])) job
      (id_column_name (Samples.postings [VStr "1"; VStr "2"; VStr "3"])) NA
      = VStr "3" ∧
    removed_job_line
      (columns (Samples.postings [VStr "1"; VStr "2"; VStr "3"])) job
      ∈ printed (diagnose_shrinkage Samples.one_lost_one_grown "a.parquet" 3
                   fresh_globals).
Proof.
  refine (string_ids_are_all_resolved Samples.one_lost_one_grown "a.parquet"
            3 fresh_globals (Samples.postings [VStr "1"; VStr "2"])
            "a.parquet" (Samples.postings [VStr "1"; VStr "2"; VStr "3"])
            [VStr "1"; VStr "2"; VStr "3"] [VStr "1"; VStr "2"] "3"
            _ _ _ _ _ _ _ _ _).
  - reflexivity.
  - reflexivity.
  - discriminate.
  - reflexivity.
  - reflexivity.
  - reflexivity.
  - intros c Hc. apply list_elem_of_In in Hc. simpl in Hc.
    destruct Hc as [<-|[<-|[<-|[]]]]; right; by eexists.
  - vm_compute. lia.
  - apply (bool_decide_unpack _). by vm_compute.
Defined.

(** X16. A diagnosis that finds more than ten removed identifiers prints
    how many they are and the five that the interpreter lists first, and
    no posting line; the diagnosis ends there without error. Whatever the
    order of the interpreter, these are five different identifiers, each
    of the historical table and not of the current one. *)
Theorem many_removed_ids_are_sampled w file_path initial_count g
    current_df stdout old_df old_series current_series :
  read_parquet w file_path = Some current_df →
  git_show w file_path = Some (0, stdout) →
  stdout ≠ "" →
  parquet_of_bytes w stdout = Some old_df →
  getitem old_df (id_column_name old_df) = Some old_series →
  getitem current_df (id_column_name old_df) = Some current_series →
  (10 < size (missing_ids (id_set old_series) (id_set current_series)))%nat →
  ∃ first_five : list string,
    printed (diagnose_shrinkage w file_path initial_count g) =
      [EvDiagnosing file_path; EvInitialJobs initial_count;
       EvCurrentJobs (len current_df);
       delta_line initial_count (len current_df);
       EvRemoved (size (missing_ids (id_set old_series)
                          (id_set current_series)));
       EvAdded (size (new_ids (id_set old_series) (id_set current_series)));
       EvTooMany (size (missing_ids (id_set old_series)
                          (id_set current_series)));
       EvFirstFive first_five] ∧
    first_five =
      take 5 (list_of_set w (missing_ids (id_set old_series)
                               (id_set current_series))) ∧
    length first_five = 5%nat ∧
    NoDup first_five ∧
    (∀ id, id ∈ first_five →
           id ∈ id_set old_series ∧ id ∉ id_set current_series).
Proof.
  intros Hr Hgit Hbytes Hold Hocol Hccol Hsize.
  set (missing := missing_ids _ _) in *.
  destruct (first_five_of_many w missing Hsize) as (Hfive & Hnodup & Hsub).
  exists (take 5 (list_of_set w missing)).
  split; [|split; [done|split; [done|split; [done|]]]].
  - rewrite diagnose_shrinkage_run. cbn [printed].
    rewrite (diagnose_body_compares_run _ _ _ _ _ _ _ _ _
               Hr Hgit Hbytes Hold Hocol Hccol).
    cbn [printed value]. fold missing.
    by rewrite (report_missing_large w old_df missing g Hsize).
  - intros id Hid. apply Hsub in Hid.
    by apply elem_of_difference in Hid.
Qed.

Lemma many_removed_ids_are_sampled_witness :
  ∃ first_five : list string,
    printed (diagnose_shrinkage Runs.many_removed "a.parquet" 12
               fresh_globals) =
      [EvDiagnosing "a.parquet"; EvInitialJobs 12;
       EvCurrentJobs (len (Samples.postings [VStr "00"]));
       delta_line 12 (len (Samples.postings [VStr "00"]));
       EvRemoved (size (missing_ids (id_set (VStr <$> Runs.twelve))
                          (id_set [VStr "00"])));
       EvAdded (size (new_ids (id_set (VStr <$> Runs.twelve))
                        (id_set [VStr "00"])));
       EvTooMany (size (missing_ids (id_set (VStr <$> Runs.twelve))
                          (id_set [VStr "00"])));
       EvFirstFive first_five] ∧
    first_five =
      take 5 (list_of_set Runs.many_removed
                (missing_ids (id_set (VStr <$> Runs.twelve))
                   (id_set [VStr "00"]))) ∧
    length first_five = 5%nat ∧
    NoDup first_five ∧
    (∀ id, id ∈ first_five →
           id ∈ id_set (VStr <$> Runs.twelve) ∧ id ∉ id_set [VStr "00"]).
Proof.
  refine (many_removed_ids_are_sampled Runs.many_removed
            "a.parquet" 12 fresh_globals
            (Samples.postings [VStr "00"]) "a.parquet"
            (Samples.postings (VStr <$> Runs.twelve))
            (VStr <$> Runs.twelve) [VStr "00"]
            _ _ _ _ _ _ _).
  - reflexivity.
  - reflexivity.
  - discriminate.
  - reflexivity.
  - reflexivity.
  - reflexivity.
  - vm_compute. lia.
Defined.

(** In that world the interpreter lists 11, 03, 02, 07 and 01 first. *)
Example many_removed_first_five :
  printed (diagnose_shrinkage Runs.many_removed "a.parquet" 12
             fresh_globals) =
    [EvDiagnosing "a.parquet"; EvInitialJobs 12; EvCurrentJobs 1;
     EvJobsLost 11; EvRemoved 11; EvAdded 0; EvTooMany 11;
     EvFirstFive ["11"; "03"; "02"; "07"; "01"]].
Proof. by vm_compute. Qed.

Lemma size_id_set (series : list cell) :
  NA ∉ series → NoDup (astype_str series) →
  size (id_set series) = length series.
Proof.
  intros Hna Hdup. unfold id_set.
  assert (dropna series = series) as ->.
  { unfold dropna. induction series as [|c series IH]; simpl; [done|].
    apply not_elem_of_cons in Hna as [Hc Hna].
    inversion Hdup; subst.
    destruct c; [done|..]; simpl; by rewrite IH. }
  rewrite size_list_to_set by done.
  unfold astype_str. by rewrite length_map.
Qed.

(** X17. When every row of both tables carries a control number and no
    two rows of a table share one, the rows lost are the identifiers
    removed less the identifiers added. *)
Theorem complete_ids_explain_the_counts old_df current_df name
    old_series current_series :
  getitem old_df name = Some old_series →
  getitem current_df name = Some current_series →
  NA ∉ old_series → NoDup (astype_str old_series) →
  NA ∉ current_series → NoDup (astype_str current_series) →
  len old_df - len current_df =
    Z.of_nat (size (missing_ids (id_set old_series) (id_set current_series)))
    - Z.of_nat (size (new_ids (id_set old_series) (id_set current_series))).
Proof.
  intros Hold Hcur Hna1 Hdup1 Hna2 Hdup2.
  pose proof (removed_and_added_sizes (id_set old_series)
                (id_set current_series)) as Hsizes.
  rewrite !size_id_set in Hsizes by done.
  apply getitem_rows in Hold as (i & _ & ->).
  apply getitem_rows in Hcur as (j & _ & ->).
  rewrite !length_map in Hsizes. unfold len. lia.
Qed.

Lemma complete_ids_explain_the_counts_witness :
  len (Samples.postings [VStr "1"; VStr "2"; VStr "3"])
  - len (Samples.postings [VStr "1"; VStr "4"]) =
    Z.of_nat (size (missing_ids (id_set [VStr "1"; VStr "2"; VStr "3"])
                      (id_set [VStr "1"; VStr "4"])))
    - Z.of_nat (size (new_ids (id_set [VStr "1"; VStr "2"; VStr "3"])
                        (id_set [VStr "1"; VStr "4"]))).
Proof.
  apply (complete_ids_explain_the_counts _ _ "usajobs_control_number").
  - reflexivity.
  - reflexivity.
  - by intros [[=]|[[=]|[[=]|[]%elem_of_nil]%elem_of_cons]%elem_of_cons]
      %elem_of_cons.
  - apply (bool_decide_unpack _). by vm_compute.
  - by intros [[=]|[[=]|[]%elem_of_nil]%elem_of_cons]%elem_of_cons.
  - apply (bool_decide_unpack _). by vm_compute.
Defined.

(** ** The job additions *)

Lemma main_bind_Ok {A B} (m : Main A) (k : A → Main B) g a :
  returned (m g) = Ok a →
  (m ≫= k) g =
    {| returned := returned (k a (globals_after (m g)));
       globals_after := globals_after (k a (globals_after (m g)));
       lines := lines (m g) ++ lines (k a (globals_after (m g))) |}.
Proof. intros Hm. unfold mbind, Main_bind. by rewrite Hm. Qed.

Lemma job_addition_run w initial_counts file job_additions g :
  job_addition w initial_counts file job_additions g =
    {| returned :=
         Ok (<[basename file := addition w initial_counts file]>
               job_additions);
       globals_after := g;
       lines := [addition_line w initial_counts file] |}.
Proof.
  unfold job_addition, addition, addition_line, main_try, script,
    pd_read_parquet, or_raise, say, mbind, Main_bind.
  destruct (read_parquet w file) as [df|]; simpl; [|done].
  by case_bool_decide.
Qed.

Lemma calculate_job_additions_run w initial_counts g :
  calculate_job_additions w initial_counts g =
    {| returned :=
         Ok (foldl (λ m file,
                      <[basename file := addition w initial_counts file]> m)
               ∅ (data_files w));
       globals_after := g;
       lines :=
         LnCalculating :: map (addition_line w initial_counts) (data_files w)
    |}.
Proof.
  unfold calculate_job_additions.
  erewrite main_bind_Ok by reflexivity. cbn [returned globals_after lines say].
  generalize (∅ : gmap string Z) as m.
  induction (data_files w) as [|file files IH]; intros m; simpl; [done|].
  erewrite main_bind_Ok by (rewrite job_addition_run; reflexivity).
  rewrite job_addition_run. cbn [returned globals_after lines].
  specialize (IH (<[basename file := addition w initial_counts file]> m)).
  cbn [app] in IH.
  injection IH as Hr Hg Hl. by rewrite Hr, Hg, Hl.
Qed.

Section keyed_fold.
Context {A : Type} (key : A → string) (val : A → Z).

(** Every entry of the folded dictionary was there before or comes from
    an element of the list. *)
Lemma keyed_fold_origin (xs : list A) (m : gmap string Z) k v :
  foldl (λ m x, <[key x := val x]> m) m xs !! k = Some v →
  m !! k = Some v ∨ ∃ x, x ∈ xs ∧ key x = k ∧ val x = v.
Proof.
  revert m. induction xs as [|x xs IH]; intros m; simpl; [by left|].
  intros [Hm|(y & Hy & Hk & Hv)]%IH.
  - destruct (decide (key x = k)) as [Hk|Hk].
    + rewrite <- Hk, lookup_insert_eq in Hm. injection Hm as Hv.
      right. exists x. split; [left|done].
    + rewrite lookup_insert_ne in Hm by done. by left.
  - right. exists y. split; [by right|done].
Qed.

(** With distinct keys, every element of the list has its entry. *)
Lemma keyed_fold_lookup (xs : list A) (m : gmap string Z) x :
  NoDup (key <$> xs) → x ∈ xs →
  foldl (λ m x, <[key x := val x]> m) m xs !! key x = Some (val x).
Proof.
  revert m. induction xs as [|y xs IH]; intros m Hdup Hin; simpl.
  - by apply elem_of_nil in Hin.
  - rewrite fmap_cons in Hdup. apply NoDup_cons in Hdup as [Hy Hdup].
    apply elem_of_cons in Hin as [->|Hin]; [|by apply IH].
    clear IH. revert m.
    induction xs as [|z xs IH]; intros m; simpl.
    + apply lookup_insert_eq.
    + rewrite fmap_cons in Hy, Hdup.
      apply not_elem_of_cons in Hy as [Hne Hy].
      apply NoDup_cons in Hdup as [_ Hdup].
      rewrite insert_insert_ne by done. by apply IH.
Qed.

Lemma keyed_fold_dom (xs : list A) (m : gmap string Z) x :
  x ∈ xs → is_Some (foldl (λ m x, <[key x := val x]> m) m xs !! key x).
Proof.
  revert m. induction xs as [|y xs IH]; intros m Hin; simpl.
  - by apply elem_of_nil in Hin.
  - apply elem_of_cons in Hin as [->|Hin]; [|by apply IH].
    clear IH.
    assert (is_Some (<[key y := val y]> m !! key y)) as Hsome
      by (rewrite lookup_insert_eq; eauto).
    revert Hsome. generalize (<[key y := val y]> m) as m'.
    induction xs as [|z xs IH]; intros m' Hsome; simpl; [done|].
    apply IH. destruct (decide (key z = key y)) as [->|Hne].
    + rewrite lookup_insert_eq. eauto.
    + by rewrite lookup_insert_ne.
Qed.
End keyed_fold.

(** X18. [calculate_job_additions] always returns and leaves the globals
    alone. Every entry of its dictionary is under the base name of a file
    of the glob; with distinct base names the entry of a file is the
    difference of its count and of its initial count (0 when the
    snapshot does not know it), and 0 when the file cannot be read. *)
Theorem job_additions_by_file w initial_counts g :
  ∃ job_additions,
    returned (calculate_job_additions w initial_counts g) = Ok job_additions ∧
    globals_after (calculate_job_additions w initial_counts g) = g ∧
    (∀ name, is_Some (job_additions !! name) ↔
             ∃ file, file ∈ data_files w ∧ basename file = name) ∧
    (NoDup (basename <$> data_files w) →
     ∀ file, file ∈ data_files w →
       job_additions !! basename file =
         Some (match read_parquet w file with
               | Some df => len df - default 0 (initial_counts !! file)
               | None => 0
               end)).
Proof.
  rewrite calculate_job_additions_run. simpl.
  eexists. split; [done|]. split; [done|]. split.
  - intros name. split.
    + intros [v [Hm|(file & Hin & Hk & _)]%keyed_fold_origin].
      * by rewrite lookup_empty in Hm.
      * by exists file.
    + intros (file & Hin & <-). by apply keyed_fold_dom.
  - intros Hdup file Hin.
    by rewrite (keyed_fold_lookup basename (addition w initial_counts)).
Qed.

(** X19. After a check that passed, no job addition is negative, and when
    the check reported no change every addition is 0. *)
Theorem job_additions_after_a_passed_check w initial_sizes g g'
    changed job_additions :
  value (check_file_sizes_vs_initial w initial_sizes g) = Ok (true, changed) →
  returned (calculate_job_additions w (initial_counts g) g')
    = Ok job_additions →
  ∀ name count,
    job_additions !! name = Some count →
    0 ≤ count ∧ (changed = false → count = 0).
Proof.
  rewrite check_run, calculate_job_additions_run. simpl.
  destruct (forallb (passes w g) (data_files w)) eqn:Hall; [|done].
  intros [= <-] [= <-] name count
    [Hm|(file & Hin & _ & <-)]%keyed_fold_origin;
    [by rewrite lookup_empty in Hm|].
  rewrite forallb_forall in Hall.
  specialize (Hall file (proj1 (list_elem_of_In _ _) Hin)).
  unfold passes in Hall.
  destruct (observe w file) as [e|[sz n]] eqn:Ho; [done|].
  apply observe_inr in Ho as (df & Hs & Hr & ->).
  apply bool_decide_eq_true in Hall.
  unfold addition. rewrite Hr. fold (initial_of g file).
  split; [lia|]. intros Hunchanged.
  assert (grew w g file = false) as Hgrew.
  { apply not_true_is_false. intros Hgrew.
    assert (existsb (grew w g) (data_files w) = true) as Hex
      by (apply existsb_exists; exists file;
          by rewrite <- list_elem_of_In).
    congruence. }
  unfold grew in Hgrew. rewrite (observe_counted _ _ _ _ Hs Hr) in Hgrew.
  apply bool_decide_eq_false in Hgrew. lia.
Qed.

Lemma job_additions_after_a_passed_check_witness :
  value (check_file_sizes_vs_initial Runs.grown ∅
           (Samples.counts_of [(Runs.jobs_2025, 1); (Runs.jobs_2024, 3)]))
    = Ok (true, true) ∧
  0 ≤ 2 ∧ (true = false → 2 = 0).
Proof.
  split; [by vm_compute|].
  refine (job_additions_after_a_passed_check Runs.grown ∅
            (Samples.counts_of [(Runs.jobs_2025, 1); (Runs.jobs_2024, 3)])
            fresh_globals true
            {["current_jobs_2025.parquet" := 2;
              "current_jobs_2024.parquet" := 0]}
            _ _ "current_jobs_2025.parquet" 2 _).
  - by vm_compute.
  - by vm_compute.
  - by vm_compute.
Defined.

Lemma job_additions_by_file_witness :
  ∃ job_additions,
    returned (calculate_job_additions Runs.grown
                {[Runs.jobs_2025 := 1; Runs.jobs_2024 := 3]} fresh_globals)
      = Ok job_additions ∧
    job_additions !! "current_jobs_2025.parquet" = Some 2.
Proof.
  destruct (job_additions_by_file Runs.grown
              {[Runs.jobs_2025 := 1; Runs.jobs_2024 := 3]} fresh_globals)
    as (job_additions & Hr & _ & _ & Hval).
  exists job_additions. split; [exact Hr|].
  refine (Hval _ Runs.jobs_2025 _).
  - apply (bool_decide_unpack _). by vm_compute.
  - left.
Defined.

(** ** The summary and the whole run *)

Lemma insert_sorted_Permutation name names :
  insert_sorted name names ≡ₚ name :: names.
Proof.
  induction names as [|first rest IH]; simpl; [done|].
  destruct (String.leb name first); [done|].
  rewrite IH. apply Permutation_swap.
Qed.

Lemma sorted_Permutation names : sorted names ≡ₚ names.
Proof.
  unfold sorted. induction names as [|name names IH]; simpl; [done|].
  by rewrite insert_sorted_Permutation, IH.
Qed.

Lemma ascending_insert_sorted name names :
  ascending names → ascending (insert_sorted name names).
Proof.
  induction names as [|first rest IH]; simpl; [done|].
  intros Hasc. destruct (String.leb name first) eqn:Hle; [by split|].
  assert (str_le first name) as Hfirst.
  { destruct (String.leb_total name first) as [H|H]; [congruence|done]. }
  destruct rest as [|second rest]; simpl in *; [by split|].
  destruct Hasc as [Hfs Hasc].
  destruct (String.leb name second) eqn:Hle2.
  - split; [done|]. split; [done|]. done.
  - split; [done|]. by apply IH.
Qed.

Lemma ascending_sorted names : ascending (sorted names).
Proof.
  unfold sorted. induction names as [|name names IH]; simpl; [done|].
  by apply ascending_insert_sorted.
Qed.

Lemma summary_names_app ls ls' :
  summary_names (ls ++ ls') = (summary_names ls ++ summary_names ls')%list.
Proof.
  induction ls as [|ln ls IH]; simpl; [done|].
  destruct ln; simpl; by rewrite ?IH.
Qed.

Lemma summary_names_opening ls :
  Forall (λ ln, ∀ name count,
            ln ≠ LnFileAdded name count ∧ ln ≠ LnFileZero name) ls →
  summary_names ls = [].
Proof.
  induction 1 as [|ln ls Hln _ IH]; simpl; [done|].
  destruct ln; try done.
  - by destruct (Hln filename count) as [? _].
  - by destruct (Hln filename 0) as [_ ?].
Qed.

Lemma summary_names_file_lines job_additions names :
  summary_names (map (file_line job_additions) names) = names.
Proof.
  induction names as [|name names IH]; simpl; [done|].
  unfold file_line at 1. case_bool_decide; simpl; by rewrite IH.
Qed.

Lemma summary_loop_run job_additions names g :
  (∀ name, name ∈ names → is_Some (job_additions !! name)) →
  main_for names
    (λ filename (_ : unit), summary_line job_additions filename) () g =
    {| returned := Ok (); globals_after := g;
       lines := map (file_line job_additions) names |}.
Proof.
  induction names as [|name names IH]; intros Hsome; simpl; [done|].
  assert (summary_line job_additions name g =
            {| returned := Ok (); globals_after := g;
               lines := [file_line job_additions name] |}) as Hline.
  { destruct (Hsome name) as [count Hcount]; [left|].
    unfold summary_line, file_line, script, or_raise, say, mbind, Main_bind.
    rewrite Hcount. simpl. by case_bool_decide. }
  erewrite main_bind_Ok by (rewrite Hline; reflexivity).
  rewrite Hline. cbn [returned globals_after lines].
  rewrite IH; [done|]. intros n Hn. apply Hsome. by right.
Qed.

(** The summary never raises: every name it looks up is a key. *)
Lemma summary_run job_additions g :
  summary job_additions g =
    {| returned := Ok (); globals_after := g;
       lines :=
         if bool_decide (job_additions ≠ ∅) then
           LnJobsPerFile ::
           map (file_line job_additions)
             (sorted (elements (dom job_additions)))
         else [] |}.
Proof.
  unfold summary. case_bool_decide; [|done].
  erewrite main_bind_Ok by reflexivity. cbn [returned globals_after lines say].
  rewrite summary_loop_run; [done|].
  intros name Hname. apply elem_of_dom, elem_of_elements.
  by rewrite <- (sorted_Permutation (elements (dom job_additions))).
Qed.

Lemma run_command_run shell command description stream_output g :
  ∃ success output out,
    run_command shell command description stream_output g =
      {| returned := Ok (success, output); globals_after := g;
         lines := out |} ∧
    Forall opening_line out ∧ LnCheckingIntegrity ∉ out.
Proof.
  unfold run_command, say, mbind, Main_bind. simpl.
  destruct (shell command (negb stream_output)) as [stdout|stderr]; simpl.
  - do 3 eexists. split; [done|]. split; [by repeat constructor|].
    by intros [[=]|[[=]|[]%elem_of_nil]%elem_of_cons]%elem_of_cons.
  - destruct stream_output; simpl; do 3 eexists;
      (split; [done|]); (split; [by repeat constructor|]).
    + by intros [[=]|[[=]|[]%elem_of_nil]%elem_of_cons]%elem_of_cons.
    + by intros [[=]|[[=]|[[=]|[]%elem_of_nil]%elem_of_cons]%elem_of_cons]
        %elem_of_cons.
Qed.

Lemma script_lines_opening (evs : list event) :
  Forall opening_line (Script <$> evs) ∧ LnCheckingIntegrity ∉ Script <$> evs.
Proof.
  split.
  - apply Forall_fmap, Forall_forall. by intros ev _.
  - by intros (ev & [=] & _)%list_elem_of_fmap.
Qed.

Lemma record_initial_file_sizes_run w g :
  ∃ out,
    record_initial_file_sizes w g =
      {| value := Ok (foldl (λ m file, <[file := snapshot_size w file]> m)
                        ∅ (data_files w));
         store := g; printed := out |}.
Proof.
  unfold record_initial_file_sizes.
  destruct (size_snapshot_loop w (data_files w) ∅ g) as [out Hout].
  erewrite bind_Ok by reflexivity. cbn [value store printed print].
  rewrite Hout. by eexists.
Qed.

Lemma from_check_app opening rest :
  LnCheckingIntegrity ∉ opening →
  from_check (opening ++ LnCheckingIntegrity :: rest) =
    LnCheckingIntegrity :: rest.
Proof.
  induction opening as [|ln opening IH]; intros Hnot; simpl; [done|].
  apply not_elem_of_cons in Hnot as [Hne Hnot].
  destruct ln; try done; by apply IH.
Qed.

(** [main] always returns; its output is what comes before the check,
    the check, and what the verdict leads to. *)
Lemma main_run tl g :
  ∃ opening initial_sizes verdict,
    value (record_initial_file_sizes (before tl) g) = Ok initial_sizes ∧
    value (check_file_sizes_vs_initial (after tl) initial_sizes
             (store (record_initial_job_counts (before tl) g))) = Ok verdict ∧
    Forall opening_line opening ∧
    (LnCheckingIntegrity ∉ opening) ∧
    main tl g =
      {| returned := Ok ();
         globals_after := store (record_initial_job_counts (before tl) g);
         lines :=
           (opening ++
            LnCheckingIntegrity ::
            (Script <$> printed (check_file_sizes_vs_initial (after tl)
                                   initial_sizes
                                   (store (record_initial_job_counts
                                             (before tl) g)))) ++
            closing (after tl)
              (store (record_initial_job_counts (before tl) g)) verdict)%list
      |}.
Proof.
  destruct (record_initial_file_sizes_run (before tl) g) as [out_sizes Hsizes].
  pose proof (record_initial_job_counts_run (before tl) g) as Hcounts.
  cbv zeta in Hcounts.
  set (initial_sizes := foldl _ ∅ _) in Hsizes.
  set (counts := foldl _ (initial_counts g) _) in Hcounts.
  set (g1 := {| initial_counts := counts |}) in Hcounts.
  destruct (run_command_run (shell tl) current_cmd "Collecting current jobs"
              true g1) as (success & output & out_cmd & Hcmd & Hopen & Hno).
  pose proof (check_run (after tl) initial_sizes g1) as Hcheck.
  set (verdict := if forallb _ _ then _ else _) in Hcheck.
  exists (LnBanner :: (Script <$> out_sizes) ++
          (Script <$> (EvRecordingCounts ::
                       map (snapshot_line (before tl))
                         (data_files (before tl)))) ++
          out_cmd ++
          [if success then LnCollectionCompleted else LnCollectionFailed])%list,
    initial_sizes, verdict.
  rewrite Hsizes, Hcounts. cbn [value store printed].
  split; [done|]. split; [by rewrite Hcheck|].
  split.
  { constructor; [done|]. rewrite !Forall_app.
    split; [apply script_lines_opening|].
    split; [apply script_lines_opening|].
    split; [done|]. constructor; [by destruct success|constructor]. }
  split.
  { rewrite not_elem_of_cons, !not_elem_of_app.
    split; [done|]. split; [apply script_lines_opening|].
    split; [apply script_lines_opening|]. split; [done|].
    destruct success;
      by intros [[=]|[]%elem_of_nil]%elem_of_cons. }
  unfold main, closing.
  unfold mbind, Main_bind, script, say.
  cbn [returned globals_after lines value store printed].
  rewrite Hsizes. cbn [returned globals_after lines value store printed].
  rewrite Hcounts. cbn [returned globals_after lines value store printed].
  rewrite Hcmd. cbn [returned globals_after lines value store printed fst].
  pose proof (calculate_job_additions_run (after tl) counts g1) as Hcalc.
  clearbody verdict.
  destruct success;
    cbn [returned globals_after lines value store printed];
    rewrite Hcheck; cbn [returned globals_after lines value store printed];
    destruct verdict as [[|] [|]];
    cbn [fst snd negb returned globals_after lines];
    change (initial_counts g1) with counts;
    rewrite ?Hcalc; cbn [returned globals_after lines];
    unfold main_try; rewrite ?summary_run;
    cbn [returned globals_after lines];
    repeat (progress (rewrite ?fmap_cons, <- ?app_assoc; cbn [app]));
    reflexivity.
Qed.

Lemma snapshot_initial_of w g file :
  file ∈ data_files w →
  initial_of (store (record_initial_job_counts w g)) file
    = snapshot_count w file.
Proof.
  intros Hin. unfold initial_of.
  rewrite record_initial_job_counts_run. simpl.
  by rewrite lookup_recorded.
Qed.

Lemma script_not_own_line (evs : list event) (ln : line) :
  (∀ ev, ln ≠ Script ev) → ln ∉ Script <$> evs.
Proof. intros Hne (ev & -> & _)%list_elem_of_fmap. by eapply Hne. Qed.

Lemma opening_not_later (opening : list line) (ln : line) :
  Forall opening_line opening → ¬ opening_line ln → ln ∉ opening.
Proof.
  intros Hall Hnot Hin. rewrite Forall_forall in Hall. by apply Hnot, Hall.
Qed.

(** X20. One file that holds fewer rows after the collector than before
    it stops the run: [main] returns after "data file checks failed",
    having computed no job additions and printed no summary and no
    success line, whatever the collector returned and whatever the other
    files look like. *)
Theorem a_lost_file_stops_the_run tl g file df0 current_size df1 :
  file ∈ data_files (before tl) →
  read_parquet (before tl) file = Some df0 →
  file ∈ data_files (after tl) →
  getsize (after tl) file = Some current_size →
  read_parquet (after tl) file = Some df1 →
  len df1 < len df0 →
  returned (main tl g) = Ok () ∧
  last (lines (main tl g)) = Some LnChecksFailed ∧
  Script (EvDiagnosing file) ∈ lines (main tl g) ∧
  (LnCalculating ∉ lines (main tl g)) ∧
  (LnSummaryHeader ∉ lines (main tl g)) ∧
  (LnSuccess ∉ lines (main tl g)).
Proof.
  intros Hin0 Hr0 Hin1 Hs1 Hr1 Hlt.
  destruct (main_run tl g)
    as (opening & initial_sizes & verdict & _ & Hv & Hopen & _ & ->).
  cbn [returned lines].
  set (g1 := store (record_initial_job_counts (before tl) g)) in *.
  assert (len df1 < initial_of g1 file) as Hlt1.
  { unfold g1. rewrite snapshot_initial_of by done.
    unfold snapshot_count. by rewrite Hr0. }
  destruct (lost_file_fails_all (after tl) g1 file current_size df1)
    as [Hfail Hlost]; try done.
  rewrite check_run in Hv. cbn [value] in Hv. rewrite Hfail in Hv.
  injection Hv as <-. unfold closing. cbn [fst negb].
  split; [done|]. split.
  { rewrite app_comm_cons, !app_assoc. apply last_snoc. }
  split.
  { rewrite elem_of_app, elem_of_cons, elem_of_app. right. right. left.
    apply list_elem_of_fmap. exists (EvDiagnosing file). split; [done|].
    by apply check_diagnoses_lost. }
  split; [|split];
    (rewrite not_elem_of_app, not_elem_of_cons, not_elem_of_app;
     split; [apply opening_not_later; [done|by intros []]|];
     split; [done|];
     split; [by apply script_not_own_line|];
     by intros [[=]|[]%elem_of_nil]%elem_of_cons).
Qed.

Lemma a_lost_file_stops_the_run_witness :
  last (lines (main Runs.losing fresh_globals)) = Some LnChecksFailed.
Proof.
  refine (proj1 (proj2 (a_lost_file_stops_the_run Runs.losing fresh_globals
                          Runs.jobs_2024
                          (Samples.postings [VStr "1"; VStr "2"; VStr "3"])
                          4096 (Samples.postings [VStr "1"; VStr "2"])
                          _ _ _ _ _ _))).
  - right. left.
  - reflexivity.
  - right. left.
  - reflexivity.
  - reflexivity.
  - reflexivity.
Defined.

(** X21. [main] prints its success line only when every file that the
    glob matches after the collector can be read, and holds at least as
    many rows as it held before when it was there before. *)
Theorem success_means_no_file_shrank tl g :
  LnSuccess ∈ lines (main tl g) →
  ∀ file, file ∈ data_files (after tl) →
    ∃ df1,
      read_parquet (after tl) file = Some df1 ∧
      ∀ df0, file ∈ data_files (before tl) →
             read_parquet (before tl) file = Some df0 →
             len df0 ≤ len df1.
Proof.
  destruct (main_run tl g)
    as (opening & initial_sizes & verdict & _ & Hv & Hopen & _ & ->).
  cbn [lines].
  set (g1 := store (record_initial_job_counts (before tl) g)) in *.
  rewrite elem_of_app, elem_of_cons, elem_of_app.
  intros [Hin|[[=]|[Hin|Hin]]].
  { apply opening_not_later in Hin; [done|done|by intros []]. }
  { by apply script_not_own_line in Hin. }
  rewrite check_run in Hv. cbn [value] in Hv.
  destruct (forallb (passes (after tl) g1) (data_files (after tl))) eqn:Hall.
  2: { injection Hv as <-. unfold closing in Hin. cbn [fst negb] in Hin.
       by apply list_elem_of_singleton in Hin. }
  clear Hin. intros file Hfile.
  rewrite forallb_forall in Hall.
  specialize (Hall file (proj1 (list_elem_of_In _ _) Hfile)).
  unfold passes in Hall.
  destruct (observe (after tl) file) as [e|[sz n]] eqn:Ho; [done|].
  apply observe_inr in Ho as (df1 & _ & Hr1 & ->).
  apply bool_decide_eq_true in Hall.
  exists df1. split; [done|]. intros df0 Hin0 Hr0.
  unfold g1 in Hall. rewrite snapshot_initial_of in Hall by done.
  unfold snapshot_count in Hall. by rewrite Hr0 in Hall.
Qed.

Lemma success_means_no_file_shrank_witness :
  ∃ df1,
    read_parquet (after Runs.growing) Runs.jobs_2025 = Some df1 ∧
    ∀ df0, Runs.jobs_2025 ∈ data_files (before Runs.growing) →
           read_parquet (before Runs.growing) Runs.jobs_2025 = Some df0 →
           len df0 ≤ len df1.
Proof.
  apply (success_means_no_file_shrank Runs.growing fresh_globals).
  - vm_compute. repeat constructor.
  - left.
Defined.

Lemma job_additions_keys w initial_counts name :
  is_Some (foldl (λ (m : gmap string Z) file,
                    <[basename file := addition w initial_counts file]> m)
             ∅ (data_files w) !! name) ↔
  ∃ file, file ∈ data_files w ∧ basename file = name.
Proof.
  split.
  - intros [v [Hm|(file & Hin & Hk & _)]%keyed_fold_origin].
    + by rewrite lookup_empty in Hm.
    + by exists file.
  - intros (file & Hin & <-). by apply keyed_fold_dom.
Qed.

Lemma summary_names_none ls :
  Forall (λ ln, match ln with
                | LnFileAdded _ _ | LnFileZero _ => False
                | _ => True
                end) ls →
  summary_names ls = [].
Proof.
  induction 1 as [|ln ls Hln _ IH]; simpl; [done|]. by destruct ln.
Qed.

Lemma summary_names_script (evs : list event) :
  summary_names (Script <$> evs) = [].
Proof. induction evs as [|ev evs IH]; simpl; done. Qed.

Lemma summary_names_closing w g verdict :
  summary_names (closing w g verdict) =
    if verdict.1 && verdict.2 then
      sorted (elements (dom (foldl (λ (m : gmap string Z) file,
                                      <[basename file :=
                                          addition w (initial_counts g) file]>
                                        m)
                               ∅ (data_files w))))
    else [].
Proof.
  unfold closing. destruct verdict as [[|] [|]]; cbn [fst snd negb andb]; try done.
  rewrite calculate_job_additions_run. cbn [returned lines].
  set (m := foldl _ ∅ _).
  unfold main_try. rewrite summary_run. cbn [returned lines].
  rewrite app_comm_cons, !summary_names_app.
  assert (summary_names
            (LnCalculating ::
             map (addition_line w (initial_counts g)) (data_files w)) = [])
    as ->.
  { apply summary_names_none. constructor; [done|].
    apply Forall_forall. intros ln (file & -> & _)%list_elem_of_fmap.
    unfold addition_line. destruct (read_parquet w file); [|done].
    by case_bool_decide. }
  cbn [app summary_names]. rewrite app_nil_r. case_bool_decide as Hm.
  - cbn [summary_names]. apply summary_names_file_lines.
  - clearbody m. subst m. by vm_compute.
Qed.

(** X22. The summary of [main] lists the file names in ascending order,
    each once; in a run that ends with the success line they are the
    base names of the files that the glob matches after the collector. *)
Theorem summary_is_sorted_by_file_name tl g :
  ascending (summary_names (lines (main tl g))) ∧
  NoDup (summary_names (lines (main tl g))) ∧
  (LnSuccess ∈ lines (main tl g) →
   ∀ name, name ∈ summary_names (lines (main tl g)) ↔
           ∃ file, file ∈ data_files (after tl) ∧ basename file = name).
Proof.
  destruct (main_run tl g)
    as (opening & initial_sizes & verdict & _ & Hv & Hopen & _ & ->).
  cbn [lines].
  set (g1 := store (record_initial_job_counts (before tl) g)) in *.
  assert (summary_names opening = []) as Hnone.
  { apply summary_names_none. eapply Forall_impl; [exact Hopen|].
    by intros []. }
  rewrite summary_names_app, Hnone. cbn [app summary_names].
  rewrite summary_names_app, summary_names_script. cbn [app].
  rewrite summary_names_closing.
  set (m := foldl _ ∅ _).
  split; [|split].
  - destruct (verdict.1 && verdict.2); [apply ascending_sorted|done].
  - destruct (verdict.1 && verdict.2); [|constructor].
    rewrite sorted_Permutation. apply NoDup_elements.
  - rewrite elem_of_app, elem_of_cons, elem_of_app.
    intros [Hin|[[=]|[Hin|Hin]]].
    { apply opening_not_later in Hin; [done|done|by intros []]. }
    { by apply script_not_own_line in Hin. }
    assert (verdict.1 && verdict.2 = true) as ->.
    { unfold closing in Hin.
      destruct verdict as [[|] [|]]; cbn [fst snd negb] in Hin; [done|..];
        by repeat (apply elem_of_cons in Hin as [[=]|Hin]);
           apply elem_of_nil in Hin. }
    intros name. rewrite sorted_Permutation, elem_of_elements, elem_of_dom.
    apply job_additions_keys.
Qed.

(** X23. What the collector returned changes nothing but the lines on
    the collection itself: the integrity check is always announced and
    run, and from there on the output and the globals left behind are
    those of the same run with any other collector result. *)
Theorem collector_result_changes_nothing_else tl shell' g :
  LnCheckingIntegrity ∈ lines (main tl g) ∧
  from_check (lines (main {| before := before tl; shell := shell';
                             after := after tl |} g))
    = from_check (lines (main tl g)) ∧
  globals_after (main {| before := before tl; shell := shell';
                         after := after tl |} g)
    = globals_after (main tl g).
Proof.
  destruct (main_run tl g)
    as (opening & initial_sizes & verdict & Hs & Hv & _ & Hno & ->).
  destruct (main_run {| before := before tl; shell := shell';
                        after := after tl |} g)
    as (opening' & initial_sizes' & verdict' & Hs' & Hv' & _ & Hno' & ->).
  cbn [before after lines globals_after] in *.
  rewrite Hs in Hs'. injection Hs' as <-.
  rewrite Hv in Hv'. injection Hv' as <-.
  split; [|split; [|done]].
  - rewrite elem_of_app. right. left.
  - by rewrite !from_check_app.
Qed.

Lemma summary_is_sorted_by_file_name_witness :
  "current_jobs_2024.parquet"
    ∈ summary_names (lines (main Runs.growing fresh_globals)) ↔
  ∃ file,
    file ∈ data_files (after Runs.growing) ∧
    basename file = "current_jobs_2024.parquet".
Proof.
  apply (summary_is_sorted_by_file_name Runs.growing fresh_globals).
  vm_compute. repeat constructor.
Defined.
